(** * qwergpt-ui: the pipeline monitor's connection life cycle and snapshot

  A shallow embedding of [src/PipelineMonitor.tsx] and of the message
  handler of [src/App.tsx].  React state ([useState]) and refs ([useRef])
  are fields of one [World] record that every callback transforms; the
  browser's sockets and timers are finite maps of that record, and the
  one array the component sorts in place lives in a [heap] so that every
  alias of it sees the sort. *)

From Stdlib Require Import ZArith QArith String Ascii List Bool Lia Sorted Permutation.
From stdpp Require Import base option list gmap strings fin_maps pretty.

Local Set Warnings "-register-all".
Local Close Scope Q_scope.
Local Open Scope string_scope.
Local Open Scope positive_scope.
Local Open Scope list_scope.

(** ** JavaScript values that [JSON.parse] can return *)

Module JS.

(** A parsed JSON document.  Numbers are rationals: every finite IEEE
    double is one, and [JSON.parse] yields neither NaN nor an infinity.
    An object is the list of its own properties, in the order
    [Object.entries] enumerates them. *)
Inductive json : Type :=
| JNull
| JBool (b : bool)
| JNum (q : Q)
| JStr (s : string)
| JArr (items : list json)
| JObj (props : list (string * json)).

(** What a JavaScript statement can end with. *)
Inductive exn : Type :=
| SyntaxError     (* JSON.parse on malformed text *)
| TypeError.      (* property read on null, call of a non-function *)

Inductive completion (A : Type) : Type :=
| Normal (a : A)
| Throw (e : exn).
Arguments Normal {A} a.
Arguments Throw {A} e.

(** [if (v)]: the falsy JSON values are [null], [false], [0] and the
    empty string; every array and every object is truthy. *)
Definition truthy (v : json) : bool :=
  match v with
  | JNull => false
  | JBool b => b
  | JNum q => negb (Qnum q =? 0)%Z
  | JStr s => negb (String.eqb s EmptyString)
  | JArr _ => true
  | JObj _ => true
  end.

(** [undefined] is [None]; it is falsy. *)
Definition truthy_opt (v : option json) : bool :=
  match v with
  | Some x => truthy x
  | None => false
  end.

Fixpoint assoc (k : string) (o : list (string * json)) : option json :=
  match o with
  | [] => None
  | (k', v) :: o' => if String.eqb k k' then Some v else assoc k o'
  end.

(** [data.k] for one of the property names the program reads ([status],
    [components], [pipeline_data], ...): reading a property of [null]
    throws; numbers, booleans, strings and arrays have no such
    property. *)
Definition get_prop (k : string) (data : json) : completion (option json) :=
  match data with
  | JNull => Throw TypeError
  | JObj o => Normal (assoc k o)
  | _ => Normal None
  end.

(** The object without its property [k]. *)
Definition remove_prop (k : string) (o : list (string * json)) : list (string * json) :=
  List.filter (fun kv => negb (String.eqb k (fst kv))) o.

(** [x === "s"] *)
Definition strict_eq_str (v : option json) (s : string) : bool :=
  match v with
  | Some (JStr s') => String.eqb s' s
  | _ => false
  end.

End JS.
Export JS.

(** ** A reference [JSON.parse]

    [JSON.parse] belongs to the platform, not to the repository: the
    component model below takes it as a parameter.  This recursive-descent
    reader of RFC 8259 text is the instance at which the statements are
    tried; it rejects a [\u] escape above U+007F, which the byte strings
    used here cannot hold as one character. *)

Module RefParser.

Definition is_ws (c : ascii) : bool :=
  match nat_of_ascii c with
  | 32%nat | 9%nat | 10%nat | 13%nat => true
  | _ => false
  end.

Fixpoint skip_ws (s : string) : string :=
  match s with
  | String c r => if is_ws c then skip_ws r else s
  | EmptyString => s
  end.

Definition digit_of (c : ascii) : option Z :=
  let n := Z.of_nat (nat_of_ascii c) in
  if ((48 <=? n) && (n <=? 57))%Z then Some (n - 48)%Z else None.

Definition hex_of (c : ascii) : option Z :=
  let n := Z.of_nat (nat_of_ascii c) in
  if ((48 <=? n) && (n <=? 57))%Z then Some (n - 48)%Z
  else if ((97 <=? n) && (n <=? 102))%Z then Some (n - 87)%Z
  else if ((65 <=? n) && (n <=? 70))%Z then Some (n - 55)%Z
  else None.

(** Reads a maximal run of digits: its value, its length, the rest. *)
Fixpoint read_digits (acc : Z) (len : nat) (s : string) : Z * nat * string :=
  match s with
  | String c r =>
      match digit_of c with
      | Some d => read_digits (10 * acc + d)%Z (S len) r
      | None => (acc, len, s)
      end
  | EmptyString => (acc, len, s)
  end.

Definition starts_with_zero_digit (s : string) : bool :=
  match s with
  | String "0"%char (String c _) => match digit_of c with Some _ => true | None => false end
  | _ => false
  end.

(** [m * 10 ^ e] as a rational. *)
Definition scale10 (m e : Z) : Q :=
  if (0 <=? e)%Z then Qmake (m * 10 ^ e)%Z 1
  else Qmake m (Z.to_pos (10 ^ (- e))%Z).

Definition read_exponent (s : string) : option (Z * string) :=
  match s with
  | String c r =>
      if (Ascii.eqb c "e" || Ascii.eqb c "E")%bool then
        let '(sign, r1) :=
          match r with
          | String "-"%char r' => ((-1)%Z, r')
          | String "+"%char r' => (1%Z, r')
          | _ => (1%Z, r)
          end in
        match read_digits 0 0 r1 with
        | (_, O, _) => None
        | (e, _, r2) => Some ((sign * e)%Z, r2)
        end
      else Some (0%Z, s)
  | EmptyString => Some (0%Z, s)
  end.

Definition read_number (s : string) : option (Q * string) :=
  let '(sign, s1) :=
    match s with
    | String "-"%char r => ((-1)%Z, r)
    | _ => (1%Z, s)
    end in
  if starts_with_zero_digit s1 then None else
  match read_digits 0 0 s1 with
  | (_, O, _) => None
  | (i, _, s2) =>
      let frac :=
        match s2 with
        | String "."%char r =>
            match read_digits i 0 r with
            | (_, O, _) => None
            | (m, k, s3) => Some (m, Z.of_nat k, s3)
            end
        | _ => Some (i, 0%Z, s2)
        end in
      match frac with
      | None => None
      | Some (m, k, s3) =>
          match read_exponent s3 with
          | None => None
          | Some (e, s4) => Some (scale10 (sign * m) (e - k), s4)
          end
      end
  end.

(** The body of a string literal, after its opening quote. *)
Fixpoint read_string (s : string) : option (string * string) :=
  match s with
  | EmptyString => None
  | String "034"%char r => Some (EmptyString, r)
  | String "\"%char (String "u"%char (String a (String b (String c (String d r))))) =>
      match hex_of a, hex_of b, hex_of c, hex_of d with
      | Some 0%Z, Some 0%Z, Some h, Some l =>
          if (h <? 8)%Z then
            match read_string r with
            | Some (t, r') => Some (String (ascii_of_nat (Z.to_nat (16 * h + l))) t, r')
            | None => None
            end
          else None
      | _, _, _, _ => None
      end
  | String "\"%char (String e r) =>
      let unescaped :=
        match e with
        | "034"%char => Some "034"%char
        | "\"%char => Some "\"%char
        | "/"%char => Some "/"%char
        | "b"%char => Some "008"%char
        | "f"%char => Some "012"%char
        | "n"%char => Some "010"%char
        | "r"%char => Some "013"%char
        | "t"%char => Some "009"%char
        | _ => None
        end in
      match unescaped, read_string r with
      | Some c, Some (t, r') => Some (String c t, r')
      | _, _ => None
      end
  | String c r =>
      if (nat_of_ascii c <? 32)%nat then None else
      match read_string r with
      | Some (t, r') => Some (String c t, r')
      | None => None
      end
  end.

(** A later duplicate of a member name replaces the earlier value and
    keeps the earlier position, as property assignment does. *)
Fixpoint set_member (k : string) (v : json) (o : list (string * json)) : list (string * json) :=
  match o with
  | [] => [(k, v)]
  | (k', v') :: o' => if String.eqb k k' then (k, v) :: o' else (k', v') :: set_member k v o'
  end.

Fixpoint read_value (fuel : nat) (s : string) : option (json * string) :=
  match fuel with
  | O => None
  | S n =>
      match skip_ws s with
      | String "n" (String "u" (String "l" (String "l" r))) => Some (JNull, r)
      | String "t" (String "r" (String "u" (String "e" r))) => Some (JBool true, r)
      | String "f" (String "a" (String "l" (String "s" (String "e" r)))) => Some (JBool false, r)
      | String "034"%char r =>
          match read_string r with
          | Some (t, r') => Some (JStr t, r')
          | None => None
          end
      | String "["%char r =>
          match skip_ws r with
          | String "]"%char r' => Some (JArr [], r')
          | _ => read_items n [] r
          end
      | String "{"%char r =>
          match skip_ws r with
          | String "}"%char r' => Some (JObj [], r')
          | _ => read_members n [] r
          end
      | s' =>
          match read_number s' with
          | Some (q, r) => Some (JNum q, r)
          | None => None
          end
      end
  end
with read_items (fuel : nat) (acc : list json) (s : string) : option (json * string) :=
  match fuel with
  | O => None
  | S n =>
      match read_value n s with
      | Some (v, r) =>
          match skip_ws r with
          | String ","%char r' => read_items n (acc ++ [v]) r'
          | String "]"%char r' => Some (JArr (acc ++ [v]), r')
          | _ => None
          end
      | None => None
      end
  end
with read_members (fuel : nat) (acc : list (string * json)) (s : string) : option (json * string) :=
  match fuel with
  | O => None
  | S n =>
      match skip_ws s with
      | String "034"%char r =>
          match read_string r with
          | Some (k, r1) =>
              match skip_ws r1 with
              | String ":"%char r2 =>
                  match read_value n r2 with
                  | Some (v, r3) =>
                      match skip_ws r3 with
                      | String ","%char r4 => read_members n (set_member k v acc) r4
                      | String "}"%char r4 => Some (JObj (set_member k v acc), r4)
                      | _ => None
                      end
                  | None => None
                  end
              | _ => None
              end
          | None => None
          end
      | _ => None
      end
  end.

(** Each recursive call follows at least one consumed character or one
    change of reader, so twice the length of the text is fuel enough. *)
Definition JSON_parse (s : string) : option json :=
  match read_value (2 * String.length s + 2) s with
  | Some (v, r) => match skip_ws r with EmptyString => Some v | _ => None end
  | None => None
  end.

(** Frames are written with ['] for the quotation mark. *)
Fixpoint frame (s : string) : string :=
  match s with
  | String "'"%char r => String "034"%char (frame r)
  | String c r => String c (frame r)
  | EmptyString => EmptyString
  end.

End RefParser.


(** ** The browser: sockets, timers, the console *)

Definition sockid := positive.
Definition timerid := positive.
Definition loc := positive.

Inductive ReadyState : Type := CONNECTING | OPEN | CLOSING | CLOSED.

(** The props of [PipelineMonitor].  [components] is a reference: the
    component receives the caller's array, not a copy of it. *)
Record Props : Type := {
  initialStatus : json;
  pipeline_id : string;
  initialComponents : loc
}.

(** The only frame the component sends: [JSON.stringify({ pipeline_id })]. *)
Inductive Frame : Type :=
| Handshake (id : string).

(** A socket as the component sees it.  Each [on...] slot is either [null]
    ([None]) or the closure [connectWebSocket] stored there; such a closure
    captures the socket itself and the props of the render that made it. *)
Record WebSocket : Type := {
  readyState : ReadyState;
  onopen : option Props;
  onclose : option Props;
  onerror : option Props;
  onmessage : option Props;
  sent : list Frame
}.

(** The two callbacks the component hands to [setTimeout], with what
    they capture. *)
Inductive TimerCallback : Type :=
| Watchdog (p : Props) (ws : sockid)
| Reconnect (p : Props).

Record Timer : Type := {
  callback : TimerCallback;
  delay : Z
}.

Inductive LogEntry : Type :=
| ConsoleParseFailure (e : exn)     (* console.error('Failed to parse WebSocket message:', error) *)
| ConsoleSocketError                (* console.error('WebSocket error:', error) *)
| ToastTimeout (id : string)        (* message.error(`Pipeline ${pipeline_id} ...`), the watchdog's *)
| ToastSocketError (id : string).   (* message.error(`Pipeline ${pipeline_id} ...`), onerror's *)

(** ** The component's state *)

Record World : Type := {
  (* useState *)
  status : json;
  components : loc;
  wsConnected : bool;
  pipelineData : json;
  (* useRef *)
  wsRef : option sockid;
  reconnectTimeoutRef : option timerid;
  connectionTimeoutRef : option timerid;
  isComponentMounted : bool;
  (* the arrays that [components] and the props refer to *)
  heap : gmap loc json;
  next_loc : loc;
  (* the browser *)
  sockets : gmap sockid WebSocket;
  next_socket : sockid;
  timers : gmap timerid Timer;     (* the pending ones *)
  next_timer : timerid;
  console : list LogEntry
}.

(** The snapshot the presentation layer reads. *)
Record Snapshot : Type := {
  snap_status : json;
  snap_components : loc;
  snap_connected : bool;
  snap_data : json
}.

Definition snapshot (w : World) : Snapshot :=
  {| snap_status := status w; snap_components := components w;
     snap_connected := wsConnected w; snap_data := pipelineData w |}.

Definition setStatus (v : json) (w : World) : World :=
  {| status := v; components := components w; wsConnected := wsConnected w;
     pipelineData := pipelineData w; wsRef := wsRef w;
     reconnectTimeoutRef := reconnectTimeoutRef w;
     connectionTimeoutRef := connectionTimeoutRef w;
     isComponentMounted := isComponentMounted w; heap := heap w;
     next_loc := next_loc w; sockets := sockets w; next_socket := next_socket w;
     timers := timers w; next_timer := next_timer w; console := console w |}.

Definition setComponentsRef (l : loc) (w : World) : World :=
  {| status := status w; components := l; wsConnected := wsConnected w;
     pipelineData := pipelineData w; wsRef := wsRef w;
     reconnectTimeoutRef := reconnectTimeoutRef w;
     connectionTimeoutRef := connectionTimeoutRef w;
     isComponentMounted := isComponentMounted w; heap := heap w;
     next_loc := next_loc w; sockets := sockets w; next_socket := next_socket w;
     timers := timers w; next_timer := next_timer w; console := console w |}.

Definition setWsConnected (b : bool) (w : World) : World :=
  {| status := status w; components := components w; wsConnected := b;
     pipelineData := pipelineData w; wsRef := wsRef w;
     reconnectTimeoutRef := reconnectTimeoutRef w;
     connectionTimeoutRef := connectionTimeoutRef w;
     isComponentMounted := isComponentMounted w; heap := heap w;
     next_loc := next_loc w; sockets := sockets w; next_socket := next_socket w;
     timers := timers w; next_timer := next_timer w; console := console w |}.

Definition setPipelineData (v : json) (w : World) : World :=
  {| status := status w; components := components w; wsConnected := wsConnected w;
     pipelineData := v; wsRef := wsRef w;
     reconnectTimeoutRef := reconnectTimeoutRef w;
     connectionTimeoutRef := connectionTimeoutRef w;
     isComponentMounted := isComponentMounted w; heap := heap w;
     next_loc := next_loc w; sockets := sockets w; next_socket := next_socket w;
     timers := timers w; next_timer := next_timer w; console := console w |}.

Definition set_wsRef (r : option sockid) (w : World) : World :=
  {| status := status w; components := components w; wsConnected := wsConnected w;
     pipelineData := pipelineData w; wsRef := r;
     reconnectTimeoutRef := reconnectTimeoutRef w;
     connectionTimeoutRef := connectionTimeoutRef w;
     isComponentMounted := isComponentMounted w; heap := heap w;
     next_loc := next_loc w; sockets := sockets w; next_socket := next_socket w;
     timers := timers w; next_timer := next_timer w; console := console w |}.

Definition set_reconnectTimeoutRef (r : option timerid) (w : World) : World :=
  {| status := status w; components := components w; wsConnected := wsConnected w;
     pipelineData := pipelineData w; wsRef := wsRef w;
     reconnectTimeoutRef := r;
     connectionTimeoutRef := connectionTimeoutRef w;
     isComponentMounted := isComponentMounted w; heap := heap w;
     next_loc := next_loc w; sockets := sockets w; next_socket := next_socket w;
     timers := timers w; next_timer := next_timer w; console := console w |}.

Definition set_connectionTimeoutRef (r : option timerid) (w : World) : World :=
  {| status := status w; components := components w; wsConnected := wsConnected w;
     pipelineData := pipelineData w; wsRef := wsRef w;
     reconnectTimeoutRef := reconnectTimeoutRef w;
     connectionTimeoutRef := r;
     isComponentMounted := isComponentMounted w; heap := heap w;
     next_loc := next_loc w; sockets := sockets w; next_socket := next_socket w;
     timers := timers w; next_timer := next_timer w; console := console w |}.

Definition set_isComponentMounted (b : bool) (w : World) : World :=
  {| status := status w; components := components w; wsConnected := wsConnected w;
     pipelineData := pipelineData w; wsRef := wsRef w;
     reconnectTimeoutRef := reconnectTimeoutRef w;
     connectionTimeoutRef := connectionTimeoutRef w;
     isComponentMounted := b; heap := heap w;
     next_loc := next_loc w; sockets := sockets w; next_socket := next_socket w;
     timers := timers w; next_timer := next_timer w; console := console w |}.

Definition set_heap (h : gmap loc json) (n : loc) (w : World) : World :=
  {| status := status w; components := components w; wsConnected := wsConnected w;
     pipelineData := pipelineData w; wsRef := wsRef w;
     reconnectTimeoutRef := reconnectTimeoutRef w;
     connectionTimeoutRef := connectionTimeoutRef w;
     isComponentMounted := isComponentMounted w; heap := h;
     next_loc := n; sockets := sockets w; next_socket := next_socket w;
     timers := timers w; next_timer := next_timer w; console := console w |}.

Definition set_sockets (s : gmap sockid WebSocket) (n : sockid) (w : World) : World :=
  {| status := status w; components := components w; wsConnected := wsConnected w;
     pipelineData := pipelineData w; wsRef := wsRef w;
     reconnectTimeoutRef := reconnectTimeoutRef w;
     connectionTimeoutRef := connectionTimeoutRef w;
     isComponentMounted := isComponentMounted w; heap := heap w;
     next_loc := next_loc w; sockets := s; next_socket := n;
     timers := timers w; next_timer := next_timer w; console := console w |}.

Definition set_timers (t : gmap timerid Timer) (n : timerid) (w : World) : World :=
  {| status := status w; components := components w; wsConnected := wsConnected w;
     pipelineData := pipelineData w; wsRef := wsRef w;
     reconnectTimeoutRef := reconnectTimeoutRef w;
     connectionTimeoutRef := connectionTimeoutRef w;
     isComponentMounted := isComponentMounted w; heap := heap w;
     next_loc := next_loc w; sockets := sockets w; next_socket := next_socket w;
     timers := t; next_timer := n; console := console w |}.

Definition log (e : LogEntry) (w : World) : World :=
  {| status := status w; components := components w; wsConnected := wsConnected w;
     pipelineData := pipelineData w; wsRef := wsRef w;
     reconnectTimeoutRef := reconnectTimeoutRef w;
     connectionTimeoutRef := connectionTimeoutRef w;
     isComponentMounted := isComponentMounted w; heap := heap w;
     next_loc := next_loc w; sockets := sockets w; next_socket := next_socket w;
     timers := timers w; next_timer := next_timer w; console := console w ++ [e] |}.

(** ** Statements that may throw: a state and exception monad *)

Definition M (S A : Type) : Type := S -> S * completion A.

Definition ret {S A : Type} (a : A) : M S A := fun s => (s, Normal a).

Definition throw {S A : Type} (e : exn) : M S A := fun s => (s, Throw e).

Definition bind {S A B : Type} (m : M S A) (k : A -> M S B) : M S B :=
  fun s =>
    match m s with
    | (s', Normal a) => k a s'
    | (s', Throw e) => (s', Throw e)
    end.

Definition lift {S A : Type} (c : completion A) : M S A := fun s => (s, c).

Definition modify {S : Type} (f : S -> S) : M S unit := fun s => (f s, Normal tt).

(** [try { body } catch (error) { handler(error) }] *)
Definition try_catch {S : Type} (body : M S unit) (handler : exn -> S -> S) : S -> S :=
  fun s =>
    match body s with
    | (s', Normal _) => s'
    | (s', Throw e) => handler e s'
    end.

(** [if (v) set(v)] *)
Definition if_truthy {S : Type} (v : option json) (set : json -> S -> S) : M S unit :=
  match v with
  | Some x => if truthy x then modify (set x) else ret tt
  | None => ret tt
  end.

Notation "'let!' x ':=' m 'in' k" := (bind m (fun x => k))
  (at level 10, x name, m at level 100, k at level 200, only parsing).
Notation "'run!' m 'in' k" := (bind m (fun _ => k))
  (at level 10, m at level 100, k at level 200, only parsing).

(** ** Browser primitives *)

Definition clearTimeout (id : timerid) (w : World) : World :=
  set_timers (delete id (timers w)) (next_timer w) w.

Definition setTimeout (cb : TimerCallback) (ms : Z) (w : World) : timerid * World :=
  let id := next_timer w in
  (id, set_timers (<[id := {| callback := cb; delay := ms |}]> (timers w)) (Pos.succ id) w).

(** [new WebSocket(url)]: a socket in state CONNECTING with no handler. *)
Definition new_WebSocket (w : World) : sockid * World :=
  let id := next_socket w in
  (id, set_sockets (<[id := {| readyState := CONNECTING; onopen := None; onclose := None;
                                onerror := None; onmessage := None; sent := [] |}]> (sockets w))
         (Pos.succ id) w).

Definition update_socket (f : WebSocket -> WebSocket) (s : sockid) (w : World) : World :=
  set_sockets (alter f s (sockets w)) (next_socket w) w.

Definition with_readyState (r : ReadyState) (so : WebSocket) : WebSocket :=
  {| readyState := r; onopen := onopen so; onclose := onclose so;
     onerror := onerror so; onmessage := onmessage so; sent := sent so |}.

Definition with_handlers (h : option Props) (so : WebSocket) : WebSocket :=
  {| readyState := readyState so; onopen := h; onclose := h;
     onerror := h; onmessage := h; sent := sent so |}.

Definition with_sent (f : Frame) (so : WebSocket) : WebSocket :=
  {| readyState := readyState so; onopen := onopen so; onclose := onclose so;
     onerror := onerror so; onmessage := onmessage so; sent := sent so ++ [f] |}.

Definition readyState_of (s : sockid) (w : World) : option ReadyState :=
  readyState <$> sockets w !! s.

Definition is_open (s : sockid) (w : World) : bool :=
  match readyState_of s w with
  | Some OPEN => true
  | _ => false
  end.

(** [ws.close()]: an open or connecting socket starts closing; the close
    event comes later, from the browser. *)
Definition ws_close (s : sockid) (w : World) : World :=
  update_socket (fun so =>
    match readyState so with
    | CONNECTING | OPEN => with_readyState CLOSING so
    | _ => so
    end) s w.

(** [ws.send(frame)] on an open socket, the only state in which the open
    event's handler runs. *)
Definition ws_send (s : sockid) (f : Frame) (w : World) : World :=
  update_socket (fun so =>
    match readyState so with
    | OPEN => with_sent f so
    | _ => so
    end) s w.

(** ** PipelineMonitor.tsx *)

Definition resetState (p : Props) (w : World) : World :=
  let w := setStatus (initialStatus p) w in
  let w := setComponentsRef (initialComponents p) w in
  let w := setWsConnected false w in
  setPipelineData (JObj []) w.

Definition cleanupWebSocket (w : World) : World :=
  let w :=
    match reconnectTimeoutRef w with
    | Some id => set_reconnectTimeoutRef None (clearTimeout id w)
    | None => w
    end in
  let w :=
    match connectionTimeoutRef w with
    | Some id => set_connectionTimeoutRef None (clearTimeout id w)
    | None => w
    end in
  match wsRef w with
  | Some s =>
      let w := update_socket (with_handlers None) s w in
      let w :=
        match readyState_of s w with
        | Some OPEN | Some CONNECTING => ws_close s w
        | _ => w
        end in
      set_wsRef None w
  | None => w
  end.

(** The callback of the 5000 ms watchdog, for the socket [ws] it captured. *)
Definition watchdog_callback (p : Props) (ws : sockid) (w : World) : World :=
  if is_open ws w then w
  else
    let w := cleanupWebSocket w in
    if isComponentMounted w
    then log (ToastTimeout (pipeline_id p)) (setStatus (JStr "error") w)
    else w.

Definition connectWebSocket (p : Props) (w : World) : World :=
  let w := cleanupWebSocket w in
  if negb (isComponentMounted w) then w
  else
    let '(ws, w) := new_WebSocket w in
    let w := set_wsRef (Some ws) w in
    let '(t, w) := setTimeout (Watchdog p ws) 5000 w in
    let w := set_connectionTimeoutRef (Some t) w in
    update_socket (with_handlers (Some p)) ws w.

Definition ws_onopen (p : Props) (ws : sockid) (w : World) : World :=
  if isComponentMounted w then
    let w := setWsConnected true w in
    let w :=
      match connectionTimeoutRef w with
      | Some id => clearTimeout id w
      | None => w
      end in
    ws_send ws (Handshake (pipeline_id p)) w
  else w.

(** [setComponents(v)]: the state now refers to the array just parsed,
    a new object. *)
Definition setComponents (v : json) (w : World) : World :=
  let l := next_loc w in
  setComponentsRef l (set_heap (<[l := v]> (heap w)) (Pos.succ l) w).

Section Monitor.

Variable JSON_parse : string -> option json.

Definition parse (raw : string) : M World json :=
  match JSON_parse raw with
  | Some data => ret data
  | None => throw SyntaxError
  end.

(** The body of the [try] block of [ws.onmessage]. *)
Definition onmessage_try (raw : string) : M World unit :=
  let! data := parse raw in
  let! s := lift (get_prop "status" data) in
  run! if_truthy s setStatus in
  let! c := lift (get_prop "components" data) in
  run! if_truthy c setComponents in
  let! d := lift (get_prop "pipeline_data" data) in
  if_truthy d setPipelineData.

Definition ws_onmessage (raw : string) (w : World) : World :=
  if negb (isComponentMounted w) then w
  else try_catch (onmessage_try raw) (fun e => log (ConsoleParseFailure e)) w.

Definition ws_onerror (p : Props) (w : World) : World :=
  if negb (isComponentMounted w) then w
  else
    let w := log ConsoleSocketError w in
    let w := setStatus (JStr "error") w in
    log (ToastSocketError (pipeline_id p)) w.

Definition ws_onclose (p : Props) (ws : sockid) (w : World) : World :=
  if negb (isComponentMounted w) then w
  else
    let w := setWsConnected false w in
    if isComponentMounted w && bool_decide (wsRef w = Some ws) then
      let '(t, w) := setTimeout (Reconnect p) 3000 w in
      set_reconnectTimeoutRef (Some t) w
    else w.

Definition run_timer (cb : TimerCallback) (w : World) : World :=
  match cb with
  | Watchdog p ws => watchdog_callback p ws w
  | Reconnect p => connectWebSocket p w
  end.

(** The effect of [useEffect(..., [pipeline_id])] and its cleanup. *)
Definition effect (p : Props) (w : World) : World :=
  let w := set_isComponentMounted true w in
  let w := resetState p w in
  connectWebSocket p w.

Definition effect_cleanup (w : World) : World :=
  let w := set_isComponentMounted false w in
  cleanupWebSocket w.

(** *** What the browser does to the component

    An event reaches a handler only through the socket's slot, read when
    the event is delivered; a timer runs only while it is pending. *)
Inductive BrowserEvent : Type :=
| SocketOpens (s : sockid)
| SocketMessage (s : sockid) (raw : string)
| SocketError (s : sockid)
| SocketCloses (s : sockid)
| TimerFires (id : timerid).

Definition deliver (e : BrowserEvent) (w : World) : World :=
  match e with
  | SocketOpens s =>
      match sockets w !! s with
      | Some so =>
          match readyState so with
          | CONNECTING =>
              let w := update_socket (with_readyState OPEN) s w in
              match onopen so with
              | Some p => ws_onopen p s w
              | None => w
              end
          | _ => w
          end
      | None => w
      end
  | SocketMessage s raw =>
      match sockets w !! s with
      | Some so =>
          match readyState so, onmessage so with
          | OPEN, Some _ => ws_onmessage raw w
          | _, _ => w
          end
      | None => w
      end
  | SocketError s =>
      match sockets w !! s with
      | Some so =>
          match readyState so, onerror so with
          | CLOSED, _ => w
          | _, Some p => ws_onerror p w
          | _, None => w
          end
      | None => w
      end
  | SocketCloses s =>
      match sockets w !! s with
      | Some so =>
          match readyState so with
          | CLOSED => w
          | _ =>
              let w := update_socket (with_readyState CLOSED) s w in
              match onclose so with
              | Some p => ws_onclose p s w
              | None => w
              end
          end
      | None => w
      end
  | TimerFires id =>
      match timers w !! id with
      | Some t => run_timer (callback t) (clearTimeout id w)
      | None => w
      end
  end.

(** A closure called directly, whether or not a socket still holds it
    or its timer is still pending: the stale callback of a test. *)
Inductive StaleCall : Type :=
| LateOnopen (p : Props) (ws : sockid)
| LateOnmessage (raw : string)
| LateOnerror (p : Props)
| LateOnclose (p : Props) (ws : sockid)
| LateWatchdog (p : Props) (ws : sockid)
| LateReconnect (p : Props).

Definition call (c : StaleCall) (w : World) : World :=
  match c with
  | LateOnopen p ws => ws_onopen p ws w
  | LateOnmessage raw => ws_onmessage raw w
  | LateOnerror p => ws_onerror p w
  | LateOnclose p ws => ws_onclose p ws w
  | LateWatchdog p ws => watchdog_callback p ws w
  | LateReconnect p => connectWebSocket p w
  end.

Inductive Callback : Type :=
| Delivered (e : BrowserEvent)
| Stale (c : StaleCall).

Definition fire (c : Callback) (w : World) : World :=
  match c with
  | Delivered e => deliver e w
  | Stale c => call c w
  end.

Definition fire_all (cs : list Callback) (w : World) : World :=
  fold_left (fun w c => fire c w) cs w.

End Monitor.

(** *** Rendering: the ordered view and the per-component fields *)

(** [s.split(sep)] for a one-character separator. *)
Fixpoint split (sep : ascii) (s : string) : list string :=
  match s with
  | EmptyString => [EmptyString]
  | String c r =>
      if Ascii.eqb c sep then EmptyString :: split sep r
      else
        match split sep r with
        | h :: t => String c h :: t
        | [] => [String c EmptyString]
        end
  end.

(** [key.startsWith(p)] *)
Definition startsWith (key p : string) : bool := String.prefix p key.

Fixpoint chars (s : string) : list json :=
  match s with
  | EmptyString => []
  | String c r => JStr (String c EmptyString) :: chars r
  end.

Definition indexed (l : list json) : list (string * json) :=
  imap (fun i v => (pretty i, v)) l.

(** [Object.entries(v)]: the own enumerable properties; an array and a
    string have their indices, a number and a boolean have none. *)
Definition Object_entries (v : json) : list (string * json) :=
  match v with
  | JObj o => o
  | JArr l => indexed l
  | JStr s => indexed (chars s)
  | _ => []
  end.

(** One [{ key, value }] of [getComponentData]; an index past the end of
    an array reads [undefined], here [None]. *)
Record Field : Type := {
  key : option string;
  value : json
}.

Definition getComponentData (componentName : string) (w : World) : list Field :=
  map (fun kv => {| key := nth_error (split "." (fst kv)) 1; value := snd kv |})
    (List.filter (fun kv => startsWith (fst kv) (componentName ++ "."))
       (Object_entries (pipelineData w))).

(** [a.order || 0] for a component as the interface declares it
    ([order?: number]); a component without a numeric [order] counts
    as 0. *)
Definition order_or_0 (a : json) : Q :=
  match a with
  | JObj o =>
      match assoc "order" o with
      | Some (JNum q) => q
      | _ => 0%Q
      end
  | _ => 0%Q
  end.

(** [(a, b) => (a.order || 0) - (b.order || 0)] is negative. *)
Definition before (a b : json) : bool :=
  match (order_or_0 a ?= order_or_0 b)%Q with
  | Lt => true
  | _ => false
  end.

(** [Array.prototype.sort] is stable: an element moves in front of
    exactly those the comparator puts strictly after it. *)
Fixpoint insert_sorted (x : json) (l : list json) : list json :=
  match l with
  | [] => [x]
  | y :: l' => if before y x then y :: insert_sorted x l' else x :: y :: l'
  end.

Fixpoint sort (l : list json) : list json :=
  match l with
  | [] => []
  | x :: l' => insert_sorted x (sort l')
  end.

(** One entry of [timelineItems], without its markup. *)
Record TimelineItem : Type := {
  item_component : json;
  item_loading : bool;                  (* status === 'running' *)
  item_fields : option (list Field)     (* for a component whose name is a string *)
}.

Definition timeline_item (w : World) (c : json) : TimelineItem :=
  {| item_component := c;
     item_loading := strict_eq_str (Some (status w)) "running";
     item_fields :=
       match c with
       | JObj o =>
           match assoc "name" o with
           | Some (JStr n) => Some (getComponentData n w)
           | _ => None
           end
       | _ => None
       end |}.

(** The render function up to [timelineItems].  [components.sort(...)]
    sorts the array that the state refers to, where it is, and returns
    that same array; anything but an array has no [sort] to call. *)
Definition render (w : World) : World * completion (list TimelineItem) :=
  match heap w !! components w with
  | Some (JArr l) =>
      let sorted := sort l in
      let w := set_heap (<[components w := JArr sorted]> (heap w)) (next_loc w) w in
      (w, Normal (map (timeline_item w) sorted))
  | _ => (w, Throw TypeError)
  end.

(** The array the state refers to. *)
Definition stored_components (w : World) : option json := heap w !! components w.

(** ** App.tsx: the message handler *)

Module App.

Record State : Type := {
  status : json;
  pipelineId : json;
  components : json;
  pipelineData : json;      (* useState<any>(null) *)
  console : list string
}.

Definition setStatus (v : json) (s : State) : State :=
  {| status := v; pipelineId := pipelineId s; components := components s;
     pipelineData := pipelineData s; console := console s |}.

Definition setPipelineId (v : json) (s : State) : State :=
  {| status := status s; pipelineId := v; components := components s;
     pipelineData := pipelineData s; console := console s |}.

Definition setComponents (v : json) (s : State) : State :=
  {| status := status s; pipelineId := pipelineId s; components := v;
     pipelineData := pipelineData s; console := console s |}.

Definition setPipelineData (v : json) (s : State) : State :=
  {| status := status s; pipelineId := pipelineId s; components := components s;
     pipelineData := v; console := console s |}.

Definition console_log (m : string) (s : State) : State :=
  {| status := status s; pipelineId := pipelineId s; components := components s;
     pipelineData := pipelineData s; console := console s ++ [m] |}.

Definition initial : State :=
  {| status := JStr "initialized"; pipelineId := JStr "0"; components := JArr [];
     pipelineData := JNull; console := [] |}.

Section Handler.

Variable JSON_parse : string -> option json.

(** [handleMessage]: nothing around it catches what it throws. *)
Definition handleMessage (raw : string) : M State unit :=
  let! data := (match JSON_parse raw with
                | Some data => ret data
                | None => throw SyntaxError
                end) in
  let! s := lift (get_prop "status" data) in
  if strict_eq_str s "connected" then modify (console_log "connected")
  else
    run! if_truthy s setStatus in
    let! i := lift (get_prop "pipelineId" data) in
    run! if_truthy i setPipelineId in
    let! c := lift (get_prop "components" data) in
    run! if_truthy c setComponents in
    let! d := lift (get_prop "pipelineData" data) in
    if_truthy d setPipelineData.

End Handler.

End App.

(** ** The life of one component instance *)

(** The state of the first render: [useState(initial...)] and the refs'
    initial values, no socket and no timer yet.  [h] holds the arrays the
    caller passes; [n] is the next free array reference. *)
Definition initial_world (p : Props) (h : gmap loc json) (n : loc) : World :=
  {| status := initialStatus p; components := initialComponents p;
     wsConnected := false; pipelineData := JObj [];
     wsRef := None; reconnectTimeoutRef := None; connectionTimeoutRef := None;
     isComponentMounted := true;
     heap := h; next_loc := n;
     sockets := ∅; next_socket := 1;
     timers := ∅; next_timer := 1;
     console := [] |}.

Inductive Step : Type :=
| Browser (e : BrowserEvent)
| RunEffect (p : Props)        (* first mount, or [pipeline_id] changed *)
| RunCleanup                   (* [pipeline_id] changed, or unmount *)
| Render.

Section Lifecycle.

Variable JSON_parse : string -> option json.

Definition step (s : Step) (w : World) : World :=
  match s with
  | Browser e => deliver JSON_parse e w
  | RunEffect p => effect p w
  | RunCleanup => effect_cleanup w
  | Render => fst (render w)
  end.

Definition run (ss : list Step) (w : World) : World :=
  fold_left (fun w s => step s w) ss w.

(** The worlds a mounted component can be in. *)
Inductive reachable : World -> Prop :=
| reachable_mount p h n : reachable (effect p (initial_world p h n))
| reachable_step s w : reachable w -> reachable (step s w).

(** A change of [pipeline_id]: React runs the old effect's cleanup, then
    the effect of the new render. *)
Definition resubscribe (p : Props) (w : World) : World :=
  effect p (effect_cleanup w).

End Lifecycle.

Definition is_reconnect (t : Timer) : bool :=
  match callback t with
  | Reconnect _ => true
  | Watchdog _ _ => false
  end.

(** The pending reconnect timers, by identifier. *)
Definition pending_reconnects (w : World) : list (timerid * Timer) :=
  List.filter (fun it => is_reconnect (snd it)) (map_to_list (timers w)).

(** [k in data], for a [data] that has properties. *)
Definition has_prop (k : string) (data : json) : bool :=
  match get_prop k data with
  | Normal (Some _) => true
  | _ => false
  end.

(** ** Scenarios *)

Definition demo_props : Props :=
  {| initialStatus := JStr "initialized"; pipeline_id := "0"; initialComponents := 1 |}.

Definition component (name : string) (order : Z) : json :=
  JObj [("name", JStr name); ("order", JNum (inject_Z order))].

(** The caller's array [[{name:"B",order:2},{name:"A",order:1}]]. *)
Definition unsorted : json := JArr [component "B" 2; component "A" 1].

(** Mounted: the first socket is connecting, its watchdog is armed. *)
Definition demo_world : World :=
  effect demo_props (initial_world demo_props {[ 1 := unsorted ]} 2).

(** The first socket has opened and the handshake is sent. *)
Definition demo_open : World :=
  deliver RefParser.JSON_parse (SocketOpens 1) demo_world.

(** That socket, as [demo_open] has it. *)
Definition demo_socket : WebSocket :=
  {| readyState := OPEN;
     onopen := Some demo_props; onclose := Some demo_props;
     onerror := Some demo_props; onmessage := Some demo_props;
     sent := [Handshake "0"] |}.

(** [{"status": "connected"}] *)
Definition handshake_ack : string := RefParser.frame "{'status': 'connected'}".

(** A frame cut short. *)
Definition malformed_frame : string := RefParser.frame "{'status': 'running', 'compon".

(** ** The data mapper as the specification words it

    [componentFields(name)]: the entries whose composite key has the
    prefix ["<name>."], with that prefix stripped from the key. *)

Fixpoint strip (n : nat) (s : string) : string :=
  match n, s with
  | S n', String _ r => strip n' r
  | _, _ => s
  end.

Definition componentFields (name : string) (data : json) : list Field :=
  map (fun kv => {| key := Some (strip (String.length (name ++ ".")) (fst kv));
                    value := snd kv |})
    (List.filter (fun kv => String.prefix (name ++ ".") (fst kv)) (Object_entries data)).

Fixpoint dotless (s : string) : bool :=
  match s with
  | EmptyString => true
  | String c r => negb (Ascii.eqb c ".") && dotless r
  end.

(** Every key under ["<name>."] has a field part without a further dot. *)
Definition flat_fields (name : string) (data : json) : bool :=
  forallb (fun kv => implb (String.prefix (name ++ ".") (fst kv))
                       (dotless (strip (String.length (name ++ ".")) (fst kv))))
    (Object_entries data).

(** The state of the first render over the caller's [unsorted] array. *)
Definition first_render : World := initial_world demo_props {[ 1 := unsorted ]} 2.

(** The data map of the specification's example, and one whose field
    part has a dot of its own. *)
Definition example_data : json :=
  JObj [("parser.rows", JStr "10"); ("joiner.rows", JStr "5")].

Definition nested_data : json :=
  JObj [("parser.rows.count", JStr "3")].

(** [w'] differs from [w] by nothing a reader of the component can see
    and by no new socket or timer: sockets may have changed their state,
    pending timers may be gone. *)
Record quiet (w w' : World) : Prop := {
  quiet_snapshot : snapshot w' = snapshot w;
  quiet_heap : heap w' = heap w;
  quiet_next_socket : next_socket w' = next_socket w;
  quiet_sockets : dom (sockets w') = dom (sockets w);
  quiet_next_timer : next_timer w' = next_timer w;
  quiet_timers : timers w' ⊆ timers w;
  quiet_mounted : isComponentMounted w' = isComponentMounted w
}.

(** The snapshot a subscription starts from. *)
Definition initial_snapshot (p : Props) : Snapshot :=
  {| snap_status := initialStatus p; snap_components := initialComponents p;
     snap_connected := false; snap_data := JObj [] |}.

(** ** The invariant of the connection manager *)

Definition detached (so : WebSocket) : Prop :=
  onopen so = None /\ onclose so = None /\ onerror so = None /\ onmessage so = None.

Definition attached (p : Props) (so : WebSocket) : Prop :=
  onopen so = Some p /\ onclose so = Some p /\ onerror so = Some p /\ onmessage so = Some p.

(** What [cleanupWebSocket] leaves of the socket it tears down. *)
Definition torn_down (so : WebSocket) : WebSocket :=
  {| readyState := match readyState so with
                   | CONNECTING | OPEN => CLOSING
                   | r => r
                   end;
     onopen := None; onclose := None; onerror := None; onmessage := None;
     sent := sent so |}.

(** Only the socket in [wsRef] has handlers, and it has them all; a
    pending timer is the one its ref names: the reconnect timer (3000 ms)
    waits for a current socket that has closed, the watchdog (5000 ms)
    watches the current socket. *)
Record Wf (w : World) : Prop := {
  wf_socket_ids : forall s so, sockets w !! s = Some so -> (s < next_socket w)%positive;
  wf_timer_ids : forall id t, timers w !! id = Some t -> (id < next_timer w)%positive;
  wf_superseded : forall s so, sockets w !! s = Some so -> wsRef w <> Some s -> detached so;
  wf_current : forall s, wsRef w = Some s ->
      exists so p, sockets w !! s = Some so /\ attached p so;
  wf_timers : forall id t, timers w !! id = Some t ->
      (reconnectTimeoutRef w = Some id /\
       (exists p, t = {| callback := Reconnect p; delay := 3000 |}) /\
       (exists s, wsRef w = Some s /\ readyState_of s w = Some CLOSED))
      \/
      (connectionTimeoutRef w = Some id /\
       exists p s, t = {| callback := Watchdog p s; delay := 5000 |} /\ wsRef w = Some s)
}.

(** After the cleanup of the effect nothing is current. *)
Definition Inv (w : World) : Prop :=
  Wf w /\ (isComponentMounted w = false -> wsRef w = None).

(** No current socket, no pending timer, no handler anywhere. *)
Record Idle (w : World) : Prop := {
  idle_wsRef : wsRef w = None;
  idle_reconnectTimeoutRef : reconnectTimeoutRef w = None;
  idle_connectionTimeoutRef : connectionTimeoutRef w = None;
  idle_timers : timers w = ∅;
  idle_sockets : forall s so, sockets w !! s = Some so -> detached so;
  idle_socket_ids : forall s so, sockets w !! s = Some so -> (s < next_socket w)%positive
}.

(** [w'] has the refs, sockets and timers of [w]. *)
Record same_conn (w w' : World) : Prop := {
  sc_wsRef : wsRef w' = wsRef w;
  sc_reconnectTimeoutRef : reconnectTimeoutRef w' = reconnectTimeoutRef w;
  sc_connectionTimeoutRef : connectionTimeoutRef w' = connectionTimeoutRef w;
  sc_mounted : isComponentMounted w' = isComponentMounted w;
  sc_sockets : sockets w' = sockets w;
  sc_next_socket : next_socket w' = next_socket w;
  sc_timers : timers w' = timers w;
  sc_next_timer : next_timer w' = next_timer w
}.

(** The socket an event of the browser is about. *)
Definition socket_of (e : BrowserEvent) : option sockid :=
  match e with
  | SocketOpens s | SocketMessage s _ | SocketError s | SocketCloses s => Some s
  | TimerFires _ => None
  end.

(** ** The order of the timeline *)

(** [a] may stand before [b]: the comparator does not put [b] strictly
    first. *)
Definition by_order (a b : json) : Prop := (order_or_0 a <= order_or_0 b)%Q.

(** The components whose order is [q]. *)
Definition with_order (q : Q) (l : list json) : list json :=
  List.filter (fun a => Qeq_bool (order_or_0 a) q) l.

Definition is_array (v : json) : bool :=
  match v with
  | JArr _ => true
  | _ => false
  end.

(** Valid JSON that is neither an object nor [null]. *)
Definition is_scalar_or_array (v : json) : bool :=
  match v with
  | JBool _ | JNum _ | JStr _ | JArr _ => true
  | JNull | JObj _ => false
  end.

(** Some handler slot of the socket holds a closure. *)
Definition has_handler (so : WebSocket) : Prop :=
  onopen so <> None \/ onclose so <> None \/ onerror so <> None \/ onmessage so <> None.

(** The socket is on its way out, or gone. *)
Definition closing (so : WebSocket) : Prop :=
  readyState so = CLOSING \/ readyState so = CLOSED.

(** What the states of the sockets and the connected flag have to do
    with the refs: a socket that is not the current one is closing or
    closed; while mounted, the flag says whether the current socket is
    open; a watchdog is pending only for a socket that is not open. *)
Record Inv2 (w : World) : Prop := {
  inv_superseded_closing : forall s so,
      sockets w !! s = Some so -> wsRef w <> Some s -> closing so;
  inv_connected_flag : isComponentMounted w = true ->
      (wsConnected w = true <-> exists s, wsRef w = Some s /\ readyState_of s w = Some OPEN);
  inv_watchdog_not_open : forall id t p s,
      timers w !! id = Some t -> callback t = Watchdog p s -> is_open s w = false
}.

(** The component after a change of [pipeline_id] that came while the
    first socket was still connecting. *)
Definition demo_resubscribed : World :=
  step RefParser.JSON_parse (RunEffect demo_props)
    (step RefParser.JSON_parse RunCleanup demo_world).

(** The socket [connectWebSocket] has just made for the closures of
    props [p], and the watchdog it arms for socket [s]. *)
Definition fresh_socket (p : Props) : WebSocket :=
  {| readyState := CONNECTING;
     onopen := Some p; onclose := Some p; onerror := Some p; onmessage := Some p;
     sent := [] |}.

Definition watchdog_timer (p : Props) (s : sockid) : Timer :=
  {| callback := Watchdog p s; delay := 5000 |}.

Definition reconnect_timer (p : Props) : Timer :=
  {| callback := Reconnect p; delay := 3000 |}.

(** A connection attempt for props [p] has just begun in [w'], out of
    [w]: the current socket is a new one, connecting, with the closures
    of [p]; its watchdog is the only pending timer; every other socket
    has lost its handlers. *)
Record connecting_from (p : Props) (w w' : World) : Prop := {
  cf_wsRef : wsRef w' = Some (next_socket w);
  cf_socket : sockets w' !! next_socket w = Some (fresh_socket p);
  cf_new : sockets w !! next_socket w = None;
  cf_timers : timers w' = {[ next_timer w := watchdog_timer p (next_socket w) ]};
  cf_connectionTimeoutRef : connectionTimeoutRef w' = Some (next_timer w);
  cf_reconnectTimeoutRef : reconnectTimeoutRef w' = None;
  cf_others : forall s so, s <> next_socket w -> sockets w' !! s = Some so ->
      detached so /\ closing so;
  cf_mounted : isComponentMounted w' = true
}.

(** The superseded first socket of [demo_resubscribed]. *)
Definition demo_superseded : WebSocket :=
  {| readyState := CLOSING;
     onopen := None; onclose := None; onerror := None; onmessage := None;
     sent := [] |}.

(** The property names each handler reads. *)
Definition monitor_keys : list string := ["status"; "components"; "pipeline_data"].

Definition app_keys : list string := ["status"; "pipelineId"; "components"; "pipelineData"].

Definition key_in (k : string) (ks : list string) : bool :=
  existsb (String.eqb k) ks.

(** A component the comparator of the timeline can read as the
    interface declares it: not [null], and with an [order] that is a
    number, is falsy, or is missing. *)
Definition sortable (a : json) : bool :=
  match a with
  | JNull => false
  | JObj o =>
      match assoc "order" o with
      | Some (JNum _) => true
      | Some v => negb (truthy v)
      | None => true
      end
  | _ => true
  end.

(** * Properties *)

(** ** Inbound frames *)

Lemma if_truthy_falsy {S : Type} (v : option json) (set : json -> S -> S) :
  truthy_opt v = false -> if_truthy v set = ret tt.
Proof.
  destruct v as [x|]; simpl; [|reflexivity].
  intros ->. reflexivity.
Qed.

Lemma assoc_remove_prop_eq (k : string) (o : list (string * json)) :
  assoc k (remove_prop k o) = None.
Proof.
  induction o as [|[k' v] o IH]; simpl; [reflexivity|].
  destruct (String.eqb k k') eqn:E; simpl; [exact IH|].
  rewrite E. exact IH.
Qed.

Lemma assoc_remove_prop_ne (k k' : string) (o : list (string * json)) :
  k <> k' -> assoc k' (remove_prop k o) = assoc k' o.
Proof.
  intros Hne. induction o as [|[k0 v] o IH]; simpl; [reflexivity|].
  destruct (String.eqb k k0) eqn:E; simpl.
  - apply String.eqb_eq in E. subst k0.
    destruct (String.eqb k' k) eqn:E'; [|exact IH].
    apply String.eqb_eq in E'. congruence.
  - rewrite IH. reflexivity.
Qed.

(** A property that is falsy and a property that is missing are the
    same to every [if (data.k)]. *)
Lemma truthy_get_remove_prop (k k' : string) (o : list (string * json)) (v : json) :
  assoc k o = Some v -> truthy v = false ->
  (truthy_opt (assoc k' (remove_prop k o)) = truthy_opt (assoc k' o)) /\
  (truthy_opt (assoc k' o) = true -> assoc k' (remove_prop k o) = assoc k' o).
Proof.
  intros Hk Hv. destruct (string_dec k k') as [<-|Hne].
  - rewrite assoc_remove_prop_eq, Hk. simpl. rewrite Hv. split; [reflexivity | discriminate].
  - rewrite assoc_remove_prop_ne by assumption. split; [reflexivity | reflexivity].
Qed.

Lemma if_truthy_ext {S : Type} (a b : option json) (set : json -> S -> S) :
  truthy_opt a = truthy_opt b -> (truthy_opt b = true -> a = b) ->
  if_truthy a set = if_truthy b set.
Proof.
  intros Ht Heq. destruct (truthy_opt b) eqn:Hb.
  - rewrite Heq; reflexivity.
  - rewrite !if_truthy_falsy by assumption. reflexivity.
Qed.

Section Frames.

Variable JSON_parse : string -> option json.

(** The monitor's handler on a frame that does not parse: one line on
    the console and nothing else. *)
Lemma ws_onmessage_malformed (raw : string) (w : World) :
  JSON_parse raw = None ->
  ws_onmessage JSON_parse raw w =
    if isComponentMounted w then log (ConsoleParseFailure SyntaxError) w else w.
Proof.
  intros Hp. unfold ws_onmessage, try_catch, onmessage_try, parse, bind.
  rewrite Hp. destruct (isComponentMounted w); reflexivity.
Qed.

(** The same for the text [null], where [data.status] throws. *)
Lemma ws_onmessage_null (raw : string) (w : World) :
  JSON_parse raw = Some JNull ->
  ws_onmessage JSON_parse raw w =
    if isComponentMounted w then log (ConsoleParseFailure TypeError) w else w.
Proof.
  intros Hp. unfold ws_onmessage, try_catch, onmessage_try, parse, bind.
  rewrite Hp. destruct (isComponentMounted w); reflexivity.
Qed.

(** [App]'s handler lets the exception out, with the state as it was. *)
Lemma handleMessage_malformed (raw : string) (st : App.State) :
  JSON_parse raw = None ->
  App.handleMessage JSON_parse raw st = (st, Throw SyntaxError).
Proof.
  intros Hp. unfold App.handleMessage, bind. rewrite Hp. reflexivity.
Qed.

Lemma handleMessage_handshake (raw : string) (o : list (string * json)) (st : App.State) :
  JSON_parse raw = Some (JObj o) ->
  assoc "status" o = Some (JStr "connected") ->
  App.handleMessage JSON_parse raw st = (App.console_log "connected" st, Normal tt).
Proof.
  intros Hp Hs. unfold App.handleMessage, bind. rewrite Hp. simpl. rewrite Hs. reflexivity.
Qed.

Lemma ws_onmessage_status (raw : string) (o : list (string * json)) (v : json) (w : World) :
  JSON_parse raw = Some (JObj o) ->
  assoc "status" o = Some v -> truthy v = true ->
  isComponentMounted w = true ->
  status (ws_onmessage JSON_parse raw w) = v.
Proof.
  intros Hp Hs Ht Hm. unfold ws_onmessage, try_catch, onmessage_try, parse, bind.
  rewrite Hp, Hm. simpl. rewrite Hs. simpl. rewrite Ht. simpl.
  destruct (assoc "components" o) as [c|]; simpl;
    [destruct (truthy c); simpl|];
    (destruct (assoc "pipeline_data" o) as [d|]; simpl;
      [destruct (truthy d); reflexivity | reflexivity]).
Qed.

End Frames.

Arguments strict_eq_str : simpl never.

Ltac case_props o :=
  repeat match goal with
         | |- context [assoc ?k o] => destruct (assoc k o) as [?v|] eqn:?; simpl
         end;
  repeat match goal with
         | |- context [truthy ?v] => destruct (truthy v) eqn:?; simpl
         | |- context [strict_eq_str ?v ?s] => destruct (strict_eq_str v s) eqn:?; simpl
         end.

(** C4. Applying an inbound update changes only the snapshot fields that
    the frame carries: a field absent from the frame keeps its value, in
    the monitor's handler and in [App]'s. *)
Theorem partial_update_keeps_absent_fields
    (JSON_parse : string -> option json) (raw : string) (data : json)
    (w : World) (st : App.State) :
  JSON_parse raw = Some data ->
  let w' := ws_onmessage JSON_parse raw w in
  let st' := fst (App.handleMessage JSON_parse raw st) in
  (has_prop "status" data = false -> status w' = status w) /\
  (has_prop "components" data = false ->
     components w' = components w /\ heap w' = heap w) /\
  (has_prop "pipeline_data" data = false -> pipelineData w' = pipelineData w) /\
  wsConnected w' = wsConnected w /\
  (has_prop "status" data = false -> App.status st' = App.status st) /\
  (has_prop "pipelineId" data = false -> App.pipelineId st' = App.pipelineId st) /\
  (has_prop "components" data = false -> App.components st' = App.components st) /\
  (has_prop "pipelineData" data = false -> App.pipelineData st' = App.pipelineData st).
Proof.
  intros Hp w' st'. subst w' st'.
  unfold ws_onmessage, try_catch, onmessage_try, parse, App.handleMessage, bind, has_prop.
  rewrite Hp.
  destruct data as [| b | q | s | l | o]; simpl;
    try (destruct (isComponentMounted w); simpl; repeat split; reflexivity).
  destruct (isComponentMounted w); simpl; case_props o;
    repeat split; intros; first [reflexivity | discriminate].
Qed.

Lemma strict_eq_str_falsy (a : option json) :
  truthy_opt a = false -> strict_eq_str a "connected" = false.
Proof.
  destruct a as [[| b | q | s | l | o]|]; simpl; try reflexivity.
  unfold strict_eq_str. destruct (String.eqb s "connected") eqn:E; [|reflexivity].
  apply String.eqb_eq in E. subst s. discriminate.
Qed.

Lemma strict_eq_str_remove_prop (k k' : string) (o : list (string * json)) (v : json) :
  assoc k o = Some v -> truthy v = false ->
  strict_eq_str (assoc k' (remove_prop k o)) "connected" = strict_eq_str (assoc k' o) "connected".
Proof.
  intros Hk Hv. destruct (truthy_get_remove_prop k k' o v Hk Hv) as [Ht Heq].
  destruct (truthy_opt (assoc k' o)) eqn:E.
  - rewrite Heq; reflexivity.
  - rewrite !strict_eq_str_falsy by assumption. reflexivity.
Qed.

Lemma if_truthy_remove_prop {S : Type} (k k' : string) (o : list (string * json)) (v : json)
    (set : json -> S -> S) :
  assoc k o = Some v -> truthy v = false ->
  if_truthy (assoc k' (remove_prop k o)) set = if_truthy (assoc k' o) set.
Proof.
  intros Hk Hv. destruct (truthy_get_remove_prop k k' o v Hk Hv) as [Ht Heq].
  apply if_truthy_ext; assumption.
Qed.

(** C10. The handlers test the truthiness of a field's value, not its
    presence: a frame whose field [k] holds a falsy value is handled
    exactly as the frame without [k], so the snapshot field that [k]
    would set keeps its value. *)
Theorem falsy_field_handled_as_absent
    (JSON_parse : string -> option json) (raw raw' : string)
    (o : list (string * json)) (k : string) (v : json)
    (w : World) (st : App.State) :
  JSON_parse raw = Some (JObj o) ->
  JSON_parse raw' = Some (JObj (remove_prop k o)) ->
  assoc k o = Some v ->
  truthy v = false ->
  let w' := ws_onmessage JSON_parse raw w in
  let st' := fst (App.handleMessage JSON_parse raw st) in
  w' = ws_onmessage JSON_parse raw' w /\
  App.handleMessage JSON_parse raw st = App.handleMessage JSON_parse raw' st /\
  (k = "status" -> status w' = status w /\ App.status st' = App.status st) /\
  (k = "components" ->
     components w' = components w /\ heap w' = heap w /\
     App.components st' = App.components st) /\
  (k = "pipeline_data" -> pipelineData w' = pipelineData w) /\
  (k = "pipelineId" -> App.pipelineId st' = App.pipelineId st) /\
  (k = "pipelineData" -> App.pipelineData st' = App.pipelineData st).
Proof.
  intros Hp Hp' Hk Hv w' st'.
  assert (Hsame : w' = ws_onmessage JSON_parse raw' w /\
                  App.handleMessage JSON_parse raw st = App.handleMessage JSON_parse raw' st).
  { subst w' st'.
    unfold ws_onmessage, try_catch, onmessage_try, parse, App.handleMessage, bind, lift, get_prop.
    rewrite Hp, Hp'. unfold ret, throw. cbv beta iota.
    rewrite !(if_truthy_remove_prop k _ o v) by assumption.
    rewrite (strict_eq_str_remove_prop k _ o v) by assumption.
    split; reflexivity. }
  destruct Hsame as [Hw Hst]. split; [exact Hw|]. split; [exact Hst|].
  subst w' st'.
  unfold ws_onmessage, try_catch, onmessage_try, parse, App.handleMessage, bind, lift, get_prop.
  rewrite Hp. unfold ret, throw. cbv beta iota.
  repeat apply conj; intros ->; rewrite Hk; simpl; rewrite Hv; simpl;
    destruct (isComponentMounted w); simpl; case_props o;
    repeat apply conj; try reflexivity.
  all: try match goal with
           | H : strict_eq_str (Some ?x) _ = true |- _ =>
               rewrite (strict_eq_str_falsy (Some x)) in H by (simpl; assumption); discriminate
           end.
Qed.

(** Witness for C4: a frame that carries only [status] leaves the data
    map as it was. *)
Lemma partial_update_keeps_absent_fields_witness :
  RefParser.JSON_parse (RefParser.frame "{'status': 'running'}")
    = Some (JObj [("status", JStr "running")]) /\
  pipelineData (ws_onmessage RefParser.JSON_parse (RefParser.frame "{'status': 'running'}") demo_open)
    = pipelineData demo_open.
Proof.
  split; [reflexivity|].
  apply (partial_update_keeps_absent_fields RefParser.JSON_parse
           (RefParser.frame "{'status': 'running'}")
           (JObj [("status", JStr "running")]) demo_open App.initial eq_refl).
  reflexivity.
Defined.

(** Witness for C10: an empty [status] next to a component list. *)
Lemma falsy_field_handled_as_absent_witness :
  status (ws_onmessage RefParser.JSON_parse
            (RefParser.frame "{'status': '', 'components': [{'name': 'ingest', 'order': 1}]}")
            demo_open)
    = status demo_open.
Proof.
  apply (falsy_field_handled_as_absent RefParser.JSON_parse
           (RefParser.frame "{'status': '', 'components': [{'name': 'ingest', 'order': 1}]}")
           (RefParser.frame "{'components': [{'name': 'ingest', 'order': 1}]}")
           [("status", JStr EmptyString); ("components", JArr [component "ingest" 1])]
           "status" (JStr EmptyString) demo_open App.initial eq_refl eq_refl eq_refl eq_refl).
  reflexivity.
Defined.

(** C5. A frame that does not parse: the monitor's handler logs it and
    changes nothing else, but [App]'s [handleMessage] has no [try] around
    [JSON.parse] and the exception leaves the handler. *)
Theorem app_handler_throws_on_malformed_frame :
  RefParser.JSON_parse malformed_frame = None /\
  App.handleMessage RefParser.JSON_parse malformed_frame App.initial
    = (App.initial, Throw SyntaxError) /\
  ws_onmessage RefParser.JSON_parse malformed_frame demo_open
    = log (ConsoleParseFailure SyntaxError) demo_open.
Proof.
  assert (H : RefParser.JSON_parse malformed_frame = None) by reflexivity.
  split; [exact H|]. split.
  - apply handleMessage_malformed. exact H.
  - rewrite ws_onmessage_malformed by exact H. reflexivity.
Qed.

(** C6. The frame [{"status": "connected"}]: [App]'s handler takes it as
    the acknowledgment and sets nothing, but the monitor's handler stores
    ["connected"] as the pipeline status. *)
Theorem monitor_stores_handshake_ack_as_status :
  RefParser.JSON_parse handshake_ack = Some (JObj [("status", JStr "connected")]) /\
  status demo_open = JStr "initialized" /\
  status (deliver RefParser.JSON_parse (SocketMessage 1 handshake_ack) demo_open)
    = JStr "connected" /\
  App.handleMessage RefParser.JSON_parse handshake_ack App.initial
    = (App.console_log "connected" App.initial, Normal tt).
Proof.
  repeat apply conj; reflexivity.
Qed.

(** ** Rendering *)

(** What [render] may touch: the array the state refers to. *)
Lemma render_frame (w : World) :
  let w' := fst (render w) in
  snapshot w' = snapshot w /\
  (forall l, l <> components w -> heap w' !! l = heap w !! l) /\
  sockets w' = sockets w /\ timers w' = timers w /\
  wsRef w' = wsRef w /\ isComponentMounted w' = isComponentMounted w.
Proof.
  unfold render. destruct (heap w !! components w) as [[| b | q | s | l | o]|] eqn:E;
    simpl; repeat apply conj; try reflexivity.
  intros l' Hne. apply lookup_insert_ne. congruence.
Qed.

Lemma render_stores_sorted (w : World) (l : list json) :
  heap w !! components w = Some (JArr l) ->
  stored_components (fst (render w)) = Some (JArr (sort l)).
Proof.
  intros H. unfold render, stored_components. rewrite H. simpl.
  apply lookup_insert_eq.
Qed.

(** C8. Computing the ordered view is not a pure read: [components.sort]
    sorts the stored array itself, so after one render of
    [[B(2), A(1)]] the state, and the caller's array it shares, hold
    [[A(1), B(2)]]. *)
Theorem render_sorts_stored_components_in_place :
  let w' := fst (render first_render) in
  stored_components first_render = Some (JArr [component "B" 2; component "A" 1]) /\
  stored_components w' = Some (JArr [component "A" 1; component "B" 2]) /\
  heap w' !! initialComponents demo_props = Some (JArr [component "A" 1; component "B" 2]) /\
  stored_components w' <> stored_components first_render.
Proof.
  repeat apply conj; try reflexivity.
  vm_compute. discriminate.
Qed.

(** ** The data mapper *)

Lemma prefix_strip (p k : string) :
  String.prefix p k = true -> k = (p ++ strip (String.length p) k)%string.
Proof.
  revert k. induction p as [|c p IH]; intros k H.
  - destruct k; reflexivity.
  - destruct k as [|c' k]; simpl in H; [discriminate|].
    destruct (Ascii.ascii_dec c c') as [<-|Hne]; [|discriminate].
    change (String c k = String c (p ++ strip (String.length p) k)%string).
    f_equal. exact (IH k H).
Qed.

Lemma split_dotless (s : string) :
  dotless s = true -> split "." s = [s].
Proof.
  induction s as [|c s IH]; simpl; [reflexivity|].
  intros H. apply andb_prop in H as [Hc Hs].
  apply negb_true_iff in Hc. rewrite Hc, (IH Hs). reflexivity.
Qed.

Lemma split_app_dot (a b : string) :
  dotless a = true -> split "." (a ++ String "." b) = a :: split "." b.
Proof.
  induction a as [|c a IH]; [reflexivity|].
  intros H. simpl in H. apply andb_prop in H as [Hc Ha].
  apply negb_true_iff in Hc.
  change (split "." (String c (a ++ String "." b)) = String c a :: split "." b).
  simpl. rewrite Hc, (IH Ha). reflexivity.
Qed.

Lemma append_dot (name rest : string) :
  ((name ++ ".") ++ rest = name ++ String "." rest)%string.
Proof.
  induction name as [|c name IH]; [reflexivity|].
  change (String c ((name ++ ".") ++ rest) = String c (name ++ String "." rest))%string.
  rewrite IH. reflexivity.
Qed.

(** [key.split('.')[1]] is the text between the first and the second
    dot of the key. *)
Lemma second_segment (name key : string) :
  dotless name = true ->
  String.prefix (name ++ ".") key = true ->
  nth_error (split "." key) 1
    = head (split "." (strip (String.length (name ++ ".")) key)).
Proof.
  intros Hn Hp. rewrite (prefix_strip _ _ Hp) at 1.
  rewrite append_dot, split_app_dot by assumption. simpl.
  destruct (split "." _); reflexivity.
Qed.

(** C9, amended. For a component name without a dot, over a data map
    whose keys under ["<name>."] have a field part without a dot,
    [getComponentData] returns exactly the entries with that prefix, the
    prefix stripped from the key. *)
Theorem getComponentData_strips_prefix (name : string) (w : World) :
  dotless name = true ->
  flat_fields name (pipelineData w) = true ->
  getComponentData name w = componentFields name (pipelineData w).
Proof.
  intros Hn. unfold getComponentData, componentFields, flat_fields, startsWith.
  induction (Object_entries (pipelineData w)) as [|[k v] l IH]; simpl; [reflexivity|].
  intros H. apply andb_prop in H as [Hk Hl].
  destruct (String.prefix (name ++ ".") k) eqn:Hp; simpl; [|exact (IH Hl)].
  simpl in Hk. f_equal; [|exact (IH Hl)]. f_equal.
  change (nth_error (split "." k) 1 = Some (strip (String.length (name ++ ".")) k)).
  rewrite (second_segment name k Hn Hp), (split_dotless _ Hk). reflexivity.
Qed.

(** Witness for C9, the specification's example: of [parser.rows] and
    [joiner.rows], ["parser"] has [rows]. *)
Lemma getComponentData_strips_prefix_witness :
  getComponentData "parser" (setPipelineData example_data demo_open)
    = [{| key := Some "rows"; value := JStr "10" |}].
Proof.
  rewrite (getComponentData_strips_prefix "parser" (setPipelineData example_data demo_open)
             eq_refl eq_refl).
  reflexivity.
Defined.

(** C9 as stated fails where the field part has a dot: the key returned
    for [parser.rows.count] is [rows], not [rows.count]. *)
Lemma getComponentData_counterexample :
  getComponentData "parser" (setPipelineData nested_data demo_open)
    = [{| key := Some "rows"; value := JStr "3" |}] /\
  componentFields "parser" nested_data
    = [{| key := Some "rows.count"; value := JStr "3" |}] /\
  getComponentData "parser" (setPipelineData nested_data demo_open)
    <> componentFields "parser" nested_data.
Proof.
  repeat apply conj; try reflexivity. vm_compute. discriminate.
Qed.

(** ** Shutdown *)

Lemma quiet_refl (w : World) : quiet w w.
Proof. split; reflexivity. Qed.

Lemma quiet_trans (w1 w2 w3 : World) : quiet w1 w2 -> quiet w2 w3 -> quiet w1 w3.
Proof.
  intros [] []. split; try congruence.
  etrans; eassumption.
Qed.

Lemma quiet_clearTimeout (id : timerid) (w : World) : quiet w (clearTimeout id w).
Proof.
  split; try reflexivity. simpl. apply delete_subseteq.
Qed.

Lemma quiet_update_socket (f : WebSocket -> WebSocket) (s : sockid) (w : World) :
  quiet w (update_socket f s w).
Proof.
  split; try reflexivity. simpl. apply dom_alter_L.
Qed.

Lemma quiet_set_wsRef (r : option sockid) (w : World) : quiet w (set_wsRef r w).
Proof. split; reflexivity. Qed.

Lemma quiet_set_reconnectTimeoutRef (r : option timerid) (w : World) :
  quiet w (set_reconnectTimeoutRef r w).
Proof. split; reflexivity. Qed.

Lemma quiet_set_connectionTimeoutRef (r : option timerid) (w : World) :
  quiet w (set_connectionTimeoutRef r w).
Proof. split; reflexivity. Qed.

Lemma quiet_ws_close (s : sockid) (w : World) : quiet w (ws_close s w).
Proof. apply quiet_update_socket. Qed.

Create HintDb quiet.
#[local] Hint Resolve quiet_refl quiet_clearTimeout quiet_update_socket quiet_set_wsRef
  quiet_set_reconnectTimeoutRef quiet_set_connectionTimeoutRef quiet_ws_close : quiet.

Lemma quiet_cleanupWebSocket (w : World) : quiet w (cleanupWebSocket w).
Proof.
  unfold cleanupWebSocket.
  set (w1 := match reconnectTimeoutRef w with
             | Some id => set_reconnectTimeoutRef None (clearTimeout id w)
             | None => w
             end).
  assert (H1 : quiet w w1).
  { subst w1. destruct (reconnectTimeoutRef w) as [id|]; [|auto with quiet].
    eapply quiet_trans; [apply (quiet_clearTimeout id) | auto with quiet]. }
  set (w2 := match connectionTimeoutRef w1 with
             | Some id => set_connectionTimeoutRef None (clearTimeout id w1)
             | None => w1
             end).
  assert (H2 : quiet w1 w2).
  { subst w2. destruct (connectionTimeoutRef w1) as [id|]; [|auto with quiet].
    eapply quiet_trans; [apply (quiet_clearTimeout id) | auto with quiet]. }
  eapply quiet_trans; [exact H1|]. eapply quiet_trans; [exact H2|].
  destruct (wsRef w2) as [s|]; [|auto with quiet].
  eapply quiet_trans; [apply (quiet_update_socket (with_handlers None) s)|].
  eapply quiet_trans; [|apply quiet_set_wsRef].
  destruct (readyState_of s _) as [[]|]; auto with quiet.
Qed.

Section Shutdown.

Variable JSON_parse : string -> option json.

(** Once unmounted, no callback does anything a reader could see,
    whether the browser delivers it or a test calls it late. *)
Lemma quiet_call_unmounted (c : StaleCall) (w : World) :
  isComponentMounted w = false -> quiet w (call JSON_parse c w).
Proof.
  intros Hm. destruct c as [p ws | raw | p | p ws | p ws | p]; simpl.
  - unfold ws_onopen. rewrite Hm. apply quiet_refl.
  - unfold ws_onmessage. rewrite Hm. apply quiet_refl.
  - unfold ws_onerror. rewrite Hm. apply quiet_refl.
  - unfold ws_onclose. rewrite Hm. apply quiet_refl.
  - unfold watchdog_callback. destruct (is_open ws w); [apply quiet_refl|].
    pose proof (quiet_cleanupWebSocket w) as Hq.
    rewrite (quiet_mounted _ _ Hq), Hm. exact Hq.
  - unfold connectWebSocket.
    pose proof (quiet_cleanupWebSocket w) as Hq.
    rewrite (quiet_mounted _ _ Hq), Hm. exact Hq.
Qed.

Lemma quiet_deliver_unmounted (e : BrowserEvent) (w : World) :
  isComponentMounted w = false -> quiet w (deliver JSON_parse e w).
Proof.
  intros Hm. destruct e as [s | s raw | s | s | id]; simpl.
  - destruct (sockets w !! s) as [so|]; [|apply quiet_refl].
    destruct (readyState so); try apply quiet_refl.
    destruct (onopen so) as [p|]; [|apply quiet_update_socket].
    eapply quiet_trans; [apply (quiet_update_socket (with_readyState OPEN) s)|].
    apply (quiet_call_unmounted (LateOnopen p s)). exact Hm.
  - destruct (sockets w !! s) as [so|]; [|apply quiet_refl].
    destruct (readyState so), (onmessage so); try apply quiet_refl.
    apply (quiet_call_unmounted (LateOnmessage raw)). exact Hm.
  - destruct (sockets w !! s) as [so|]; [|apply quiet_refl].
    destruct (readyState so), (onerror so) as [p|]; try apply quiet_refl;
      apply (quiet_call_unmounted (LateOnerror p)); exact Hm.
  - destruct (sockets w !! s) as [so|]; [|apply quiet_refl].
    destruct (readyState so); try apply quiet_refl;
      (destruct (onclose so) as [p|]; [|apply quiet_update_socket];
       eapply quiet_trans; [apply (quiet_update_socket (with_readyState CLOSED) s)|];
       apply (quiet_call_unmounted (LateOnclose p s)); exact Hm).
  - destruct (timers w !! id) as [t|]; [|apply quiet_refl].
    eapply quiet_trans; [apply (quiet_clearTimeout id)|].
    destruct (callback t) as [p ws | p]; simpl.
    + apply (quiet_call_unmounted (LateWatchdog p ws)). exact Hm.
    + apply (quiet_call_unmounted (LateReconnect p)). exact Hm.
Qed.

Lemma quiet_fire_all_unmounted (cs : list Callback) (w : World) :
  isComponentMounted w = false -> quiet w (fire_all JSON_parse cs w).
Proof.
  revert w. induction cs as [|c cs IH]; intros w Hm; [apply quiet_refl|].
  simpl.
  assert (Hq : quiet w (fire JSON_parse c w)).
  { destruct c; simpl; [apply quiet_deliver_unmounted | apply quiet_call_unmounted]; exact Hm. }
  eapply quiet_trans; [exact Hq|]. apply IH.
  rewrite (quiet_mounted _ _ Hq). exact Hm.
Qed.

Lemma effect_cleanup_unmounts (w : World) :
  isComponentMounted (effect_cleanup w) = false.
Proof.
  unfold effect_cleanup.
  rewrite (quiet_mounted _ _ (quiet_cleanupWebSocket _)). reflexivity.
Qed.

End Shutdown.

(** C1. After the cleanup of the effect has run, whatever socket or timer
    callbacks fire afterwards, delivered by the browser or called late,
    the snapshot (status, components, data map, connected flag) and the
    stored arrays stay as the cleanup left them, and no socket and no
    timer is created. *)
Theorem no_mutation_after_shutdown
    (JSON_parse : string -> option json) (w : World) (cs : list Callback) :
  let w0 := effect_cleanup w in
  let w1 := fire_all JSON_parse cs w0 in
  snapshot w1 = snapshot w0 /\
  heap w1 = heap w0 /\
  dom (sockets w1) = dom (sockets w0) /\ next_socket w1 = next_socket w0 /\
  timers w1 ⊆ timers w0 /\ next_timer w1 = next_timer w0 /\
  isComponentMounted w1 = false.
Proof.
  intros w0 w1.
  pose proof (effect_cleanup_unmounts w) as Hm. fold w0 in Hm.
  pose proof (quiet_fire_all_unmounted JSON_parse cs w0 Hm) as Hq. fold w1 in Hq.
  repeat apply conj.
  - exact (quiet_snapshot _ _ Hq).
  - exact (quiet_heap _ _ Hq).
  - exact (quiet_sockets _ _ Hq).
  - exact (quiet_next_socket _ _ Hq).
  - exact (quiet_timers _ _ Hq).
  - exact (quiet_next_timer _ _ Hq).
  - rewrite (quiet_mounted _ _ Hq). exact Hm.
Qed.

(** ** Change of the subscription identifier *)

Lemma snapshot_cleanupWebSocket (w : World) :
  snapshot (cleanupWebSocket w) = snapshot w.
Proof. apply quiet_snapshot, quiet_cleanupWebSocket. Qed.

Lemma snapshot_connectWebSocket (p : Props) (w : World) :
  snapshot (connectWebSocket p w) = snapshot w /\ heap (connectWebSocket p w) = heap w.
Proof.
  unfold connectWebSocket.
  destruct (quiet_cleanupWebSocket w) as [Hs Hh _ _ _ _ _].
  destruct (negb (isComponentMounted (cleanupWebSocket w))); [split; assumption|].
  simpl. split; assumption.
Qed.

(** C3. When [pipeline_id] changes, the old effect's cleanup runs and the
    new effect resets the snapshot to the initial values (the status and
    components of the props, an empty data map, not connected) before it
    creates the new socket (until then the sockets are the old ones);
    opening the connection leaves that snapshot as it is, so the first
    event of the new subscription finds it. *)
Theorem resubscribe_resets_snapshot (p : Props) (w : World) :
  let before_connect :=
    resetState p (set_isComponentMounted true (effect_cleanup w)) in
  resubscribe p w = connectWebSocket p before_connect /\
  snapshot before_connect = initial_snapshot p /\
  dom (sockets before_connect) = dom (sockets w) /\
  wsRef (resubscribe p w) = Some (next_socket w) /\
  snapshot (resubscribe p w) = initial_snapshot p /\
  heap (resubscribe p w) = heap w.
Proof.
  intros before_connect.
  pose proof (quiet_cleanupWebSocket (set_isComponentMounted false w)) as Hq.
  fold (effect_cleanup w) in Hq.
  destruct (snapshot_connectWebSocket p before_connect) as [Hs Hh].
  assert (Hq1 : quiet before_connect (cleanupWebSocket before_connect))
    by apply quiet_cleanupWebSocket.
  repeat apply conj.
  - reflexivity.
  - reflexivity.
  - exact (quiet_sockets _ _ Hq).
  - unfold resubscribe, effect. fold before_connect. unfold connectWebSocket.
    rewrite (quiet_mounted _ _ Hq1). simpl.
    rewrite (quiet_next_socket _ _ Hq1). simpl.
    rewrite (quiet_next_socket _ _ Hq). reflexivity.
  - unfold resubscribe, effect. fold before_connect. rewrite Hs. reflexivity.
  - unfold resubscribe, effect. fold before_connect. rewrite Hh. simpl.
    rewrite (quiet_heap _ _ Hq). reflexivity.
Qed.

(** ** The connection manager's invariant *)

Lemma cleanupWebSocket_refs (w : World) :
  wsRef (cleanupWebSocket w) = None /\
  reconnectTimeoutRef (cleanupWebSocket w) = None /\
  connectionTimeoutRef (cleanupWebSocket w) = None.
Proof.
  unfold cleanupWebSocket.
  destruct (reconnectTimeoutRef w) as [r|] eqn:Hr;
    destruct (connectionTimeoutRef w) as [c|] eqn:Hc;
    destruct (wsRef w) as [s|] eqn:Hs; simpl;
    rewrite ?Hr, ?Hc, ?Hs; simpl; rewrite ?Hr, ?Hc, ?Hs; simpl;
    repeat match goal with
           | |- context [readyState_of ?s ?w] => destruct (readyState_of s w) as [[]|]; simpl
           end;
    repeat apply conj; assumption || reflexivity.
Qed.

Lemma cleanupWebSocket_timers (w : World) (id : timerid) :
  reconnectTimeoutRef w <> Some id -> connectionTimeoutRef w <> Some id ->
  timers (cleanupWebSocket w) !! id = timers w !! id.
Proof.
  intros Hr Hc. unfold cleanupWebSocket.
  destruct (reconnectTimeoutRef w) as [r|];
    destruct (connectionTimeoutRef w) as [c|] eqn:Ec;
    destruct (wsRef w) as [s|] eqn:Es; simpl;
    rewrite ?Ec, ?Es; simpl; rewrite ?Ec, ?Es; simpl;
    repeat match goal with
           | |- context [readyState_of ?s ?w] => destruct (readyState_of s w) as [[]|]; simpl
           end;
    rewrite ?lookup_delete_ne by congruence; reflexivity.
Qed.

Lemma cleanupWebSocket_timers_cleared (w : World) (id : timerid) :
  reconnectTimeoutRef w = Some id \/ connectionTimeoutRef w = Some id ->
  timers (cleanupWebSocket w) !! id = None.
Proof.
  intros H. unfold cleanupWebSocket.
  destruct (reconnectTimeoutRef w) as [r|];
    destruct (connectionTimeoutRef w) as [c|] eqn:Ec;
    destruct (wsRef w) as [s|] eqn:Es; simpl;
    rewrite ?Ec, ?Es; simpl; rewrite ?Ec, ?Es; simpl;
    repeat match goal with
           | |- context [readyState_of ?s ?w] => destruct (readyState_of s w) as [[]|]; simpl
           end;
    destruct H as [H|H]; try discriminate; injection H as ->;
    rewrite ?lookup_delete_eq; try reflexivity;
    (destruct (decide (c = id)) as [->|Hne];
       [apply lookup_delete_eq | rewrite lookup_delete_ne by assumption; apply lookup_delete_eq]).
Qed.

Lemma cleanupWebSocket_sockets (w : World) (s : sockid) :
  sockets (cleanupWebSocket w) !! s =
    if decide (wsRef w = Some s) then torn_down <$> sockets w !! s else sockets w !! s.
Proof.
  unfold cleanupWebSocket.
  destruct (reconnectTimeoutRef w) as [r|];
    destruct (connectionTimeoutRef w) as [c|] eqn:Ec;
    destruct (wsRef w) as [s0|] eqn:Es; simpl;
    rewrite ?Ec, ?Es; simpl; rewrite ?Ec, ?Es; simpl;
    try reflexivity.
  all: unfold readyState_of, update_socket; simpl.
  all: rewrite lookup_alter_eq.
  all: destruct (sockets w !! s0) as [so|] eqn:E; simpl.
  all: try destruct (readyState so) eqn:Er; simpl.
  all: case_decide as Hd; [injection Hd as ->|];
    rewrite ?lookup_alter_eq, ?E; simpl;
    rewrite ?lookup_alter_ne by congruence; try reflexivity.
  all: unfold torn_down, with_handlers, with_readyState; simpl; rewrite ?Er; reflexivity.
Qed.

Lemma same_conn_refl (w : World) : same_conn w w.
Proof. split; reflexivity. Qed.

Lemma Wf_same_conn (w w' : World) : same_conn w w' -> Wf w -> Wf w'.
Proof.
  intros [Hws Hr Hc Hm Hs Hns Ht Hnt] [W1 W2 W3 W4 W5].
  split; unfold readyState_of in *; rewrite ?Hws, ?Hr, ?Hc, ?Hs, ?Hns, ?Ht, ?Hnt; assumption.
Qed.

Lemma Inv_same_conn (w w' : World) : same_conn w w' -> Inv w -> Inv w'.
Proof.
  intros Hsc [HW Hu]. split; [eapply Wf_same_conn; eassumption|].
  rewrite (sc_mounted _ _ Hsc), (sc_wsRef _ _ Hsc). exact Hu.
Qed.

Lemma Idle_Wf (w : World) : Idle w -> Wf w.
Proof.
  intros [H1 H2 H3 H4 H5 H6]. split.
  - exact H6.
  - intros id t. rewrite H4, lookup_empty. discriminate.
  - intros s so Hs _. exact (H5 s so Hs).
  - intros s. rewrite H1. discriminate.
  - intros id t. rewrite H4, lookup_empty. discriminate.
Qed.

Lemma Idle_Inv (w : World) : Idle w -> Inv w.
Proof.
  intros H. split; [apply Idle_Wf; exact H|]. intros _. apply (idle_wsRef _ H).
Qed.

Lemma cleanupWebSocket_Idle (w : World) : Wf w -> Idle (cleanupWebSocket w).
Proof.
  intros [W1 W2 W3 W4 W5].
  destruct (cleanupWebSocket_refs w) as (R1 & R2 & R3).
  assert (Hsock : forall s so, sockets (cleanupWebSocket w) !! s = Some so ->
                    detached so /\ exists so0, sockets w !! s = Some so0).
  { intros s so. rewrite cleanupWebSocket_sockets. case_decide as Hd.
    - destruct (sockets w !! s) as [so0|]; simpl; [|discriminate].
      intros [= <-]. split; [repeat split | eauto].
    - intros Hs. split; [exact (W3 s so Hs Hd) | eauto]. }
  split; try assumption.
  - apply map_empty. intros id.
    destruct (timers (cleanupWebSocket w) !! id) as [t|] eqn:E; [|reflexivity].
    destruct (decide (reconnectTimeoutRef w = Some id)) as [Hr|Hr].
    { rewrite cleanupWebSocket_timers_cleared in E by (left; exact Hr). discriminate. }
    destruct (decide (connectionTimeoutRef w = Some id)) as [Hc|Hc].
    { rewrite cleanupWebSocket_timers_cleared in E by (right; exact Hc). discriminate. }
    rewrite cleanupWebSocket_timers in E by assumption.
    destruct (W5 id t E) as [[? _]|[? _]]; contradiction.
  - intros s so Hs. apply (Hsock s so Hs).
  - intros s so Hs. destruct (Hsock s so Hs) as [_ [so0 Hs0]].
    rewrite (quiet_next_socket _ _ (quiet_cleanupWebSocket w)). exact (W1 s so0 Hs0).
Qed.

Lemma connectWebSocket_Inv (p : Props) (w : World) : Wf w -> Inv (connectWebSocket p w).
Proof.
  intros HW. pose proof (cleanupWebSocket_Idle w HW) as HI.
  unfold connectWebSocket.
  destruct (isComponentMounted (cleanupWebSocket w)) eqn:Hm; simpl;
    [|apply Idle_Inv; exact HI].
  destruct HI as [I1 I2 I3 I4 I5 I6].
  set (w1 := cleanupWebSocket w) in *.
  split; [split|]; simpl.
  - intros s so. rewrite lookup_alter. case_decide as Hd.
    + subst s. intros _. lia.
    + rewrite lookup_insert_ne by assumption. intros Hs.
      pose proof (I6 s so Hs). lia.
  - intros id t. rewrite I4, lookup_insert. case_decide; [|rewrite lookup_empty; discriminate].
    subst id. intros _. lia.
  - intros s so Hs Hne. rewrite lookup_alter_ne in Hs by congruence.
    rewrite lookup_insert_ne in Hs by congruence. exact (I5 s so Hs).
  - intros s [= <-]. rewrite lookup_alter_eq, lookup_insert_eq. simpl.
    eexists _, p. split; [reflexivity|]. repeat split.
  - intros id t. rewrite I4, lookup_insert. case_decide; [|rewrite lookup_empty; discriminate].
    subst id. intros [= <-]. right. split; [reflexivity|]. eauto.
  - rewrite Hm. discriminate.
Qed.

Lemma Wf_clearTimeout (id : timerid) (w : World) : Wf w -> Wf (clearTimeout id w).
Proof.
  intros [W1 W2 W3 W4 W5]. split; simpl; try assumption.
  - intros id' t Ht. apply lookup_delete_Some in Ht as [_ Ht]. exact (W2 id' t Ht).
  - intros id' t Ht. apply lookup_delete_Some in Ht as [_ Ht]. exact (W5 id' t Ht).
Qed.

Lemma Inv_clearTimeout (id : timerid) (w : World) : Inv w -> Inv (clearTimeout id w).
Proof.
  intros [HW Hu]. split; [apply Wf_clearTimeout; exact HW | exact Hu].
Qed.

(** A change to one socket that keeps its handlers, and keeps it closed
    if it was. *)
Lemma Wf_update_socket (f : WebSocket -> WebSocket) (s : sockid) (w : World) :
  (forall so, onopen (f so) = onopen so /\ onclose (f so) = onclose so /\
              onerror (f so) = onerror so /\ onmessage (f so) = onmessage so) ->
  (forall so, sockets w !! s = Some so -> readyState so = CLOSED ->
              readyState (f so) = CLOSED) ->
  Wf w -> Wf (update_socket f s w).
Proof.
  intros Hh Hc [W1 W2 W3 W4 W5]. split; simpl; try assumption.
  - intros s' so' Hs. apply lookup_alter_Some in Hs as [(_ & so & Hs & _)|[_ Hs]];
      eapply W1; eassumption.
  - intros s' so' Hs Hne.
    apply lookup_alter_Some in Hs as [(_ & so & Hs & ->)|[_ Hs]]; [|exact (W3 s' so' Hs Hne)].
    unfold detached. destruct (Hh so) as (-> & -> & -> & ->). exact (W3 s' so Hs Hne).
  - intros s' Hs'. destruct (W4 s' Hs') as (so & p & Hso & Ha).
    destruct (decide (s = s')) as [->|Hne].
    + exists (f so), p. rewrite lookup_alter_eq, Hso. split; [reflexivity|].
      unfold attached. destruct (Hh so) as (-> & -> & -> & ->). exact Ha.
    + exists so, p. rewrite lookup_alter_ne by assumption. split; assumption.
  - intros id t Ht. destruct (W5 id t Ht) as [(Hr & Hp & s0 & Hw & Hcl)|Hwd]; [left|right; exact Hwd].
    split; [exact Hr|]. split; [exact Hp|]. exists s0. split; [exact Hw|].
    unfold readyState_of in *. simpl.
    destruct (decide (s = s0)) as [->|Hne]; [|rewrite lookup_alter_ne by assumption; exact Hcl].
    rewrite lookup_alter_eq. destruct (sockets w !! s0) as [so|] eqn:E; [|discriminate].
    simpl in *. injection Hcl as Hcl. rewrite (Hc so eq_refl Hcl). reflexivity.
Qed.

Lemma Inv_update_socket (f : WebSocket -> WebSocket) (s : sockid) (w : World) :
  (forall so, onopen (f so) = onopen so /\ onclose (f so) = onclose so /\
              onerror (f so) = onerror so /\ onmessage (f so) = onmessage so) ->
  (forall so, sockets w !! s = Some so -> readyState so = CLOSED ->
              readyState (f so) = CLOSED) ->
  Inv w -> Inv (update_socket f s w).
Proof.
  intros Hh Hc [HW Hu]. split; [apply Wf_update_socket; assumption | exact Hu].
Qed.

Lemma Inv_ws_onopen (p : Props) (s : sockid) (w : World) : Inv w -> Inv (ws_onopen p s w).
Proof.
  intros HI. unfold ws_onopen. destruct (isComponentMounted w); [|exact HI].
  unfold ws_send. apply Inv_update_socket.
  - intros so. destruct (readyState so); repeat split.
  - intros so _ Hc. rewrite Hc. exact Hc.
  - assert (H1 : Inv (setWsConnected true w))
      by (eapply Inv_same_conn; [|exact HI]; split; reflexivity).
    destruct (connectionTimeoutRef (setWsConnected true w)); [apply Inv_clearTimeout|]; exact H1.
Qed.

Section Invariant.

Variable JSON_parse : string -> option json.

Lemma same_conn_ws_onmessage (raw : string) (w : World) :
  same_conn w (ws_onmessage JSON_parse raw w).
Proof.
  unfold ws_onmessage, try_catch, onmessage_try, parse, bind.
  destruct (isComponentMounted w); simpl; [|apply same_conn_refl].
  destruct (JSON_parse raw) as [[| b | q | s | l | o]|]; simpl; try (split; reflexivity).
  case_props o; split; reflexivity.
Qed.

Lemma same_conn_ws_onerror (p : Props) (w : World) :
  same_conn w (ws_onerror p w).
Proof.
  unfold ws_onerror. destruct (isComponentMounted w); simpl; split; reflexivity.
Qed.

Lemma same_conn_render (w : World) : same_conn w (fst (render w)).
Proof.
  unfold render. destruct (heap w !! components w) as [[| b | q | s | l | o]|];
    simpl; split; reflexivity.
Qed.

(** The reconnect timer is set for a current socket that has just
    closed, while no other reconnect is pending. *)
Lemma Inv_ws_onclose (p : Props) (s : sockid) (w : World) :
  readyState_of s w = Some CLOSED ->
  (forall id t, timers w !! id = Some t -> is_reconnect t = false) ->
  Inv w -> Inv (ws_onclose p s w).
Proof.
  intros Hcl Hnone HI. unfold ws_onclose.
  destruct (isComponentMounted w) eqn:Hm; simpl; [|exact HI].
  rewrite Hm. simpl. case_bool_decide as Hd; simpl;
    [|eapply Inv_same_conn; [|exact HI]; split; reflexivity].
  destruct HI as [[W1 W2 W3 W4 W5] Hu].
  split; [split|]; simpl; try assumption.
  - intros id t Ht. apply lookup_insert_Some in Ht as [[<- _]|[_ Ht]]; [lia|].
    pose proof (W2 id t Ht). lia.
  - intros id t Ht. apply lookup_insert_Some in Ht as [[<- <-]|[Hne Ht]].
    + left. split; [reflexivity|]. split; [eauto|]. exists s. split; assumption.
    + destruct (W5 id t Ht) as [(_ & (p0 & ->) & _)|Hwd].
      * specialize (Hnone id _ Ht). discriminate.
      * right. exact Hwd.
Qed.

End Invariant.

Lemma no_reconnect_pending (w : World) (s : sockid) (so : WebSocket) :
  Wf w -> wsRef w = Some s -> sockets w !! s = Some so -> readyState so <> CLOSED ->
  forall id t, timers w !! id = Some t -> is_reconnect t = false.
Proof.
  intros [_ _ _ _ W5] Hw Hs Hr id t Ht.
  destruct (W5 id t Ht) as [(_ & _ & s0 & Hw0 & Hcl)|(_ & p & s0 & -> & _)]; [|reflexivity].
  rewrite Hw in Hw0. injection Hw0 as <-.
  unfold readyState_of in Hcl. rewrite Hs in Hcl. simpl in Hcl. congruence.
Qed.

Lemma Wf_set_isComponentMounted (b : bool) (w : World) :
  Wf w -> Wf (set_isComponentMounted b w).
Proof. intros [W1 W2 W3 W4 W5]. split; assumption. Qed.

Lemma Wf_resetState (p : Props) (w : World) : Wf w -> Wf (resetState p w).
Proof. intros [W1 W2 W3 W4 W5]. split; assumption. Qed.

Section Reachable.

Variable JSON_parse : string -> option json.

Lemma Inv_watchdog_callback (p : Props) (ws : sockid) (w : World) :
  Inv w -> Inv (watchdog_callback p ws w).
Proof.
  intros HI. unfold watchdog_callback. destruct (is_open ws w); [exact HI|].
  pose proof (cleanupWebSocket_Idle w (proj1 HI)) as Hidle.
  destruct (isComponentMounted (cleanupWebSocket w)); [|apply Idle_Inv; exact Hidle].
  eapply Inv_same_conn; [|apply Idle_Inv; exact Hidle]. split; reflexivity.
Qed.

Lemma Inv_deliver (e : BrowserEvent) (w : World) :
  Inv w -> Inv (deliver JSON_parse e w).
Proof.
  intros HI. destruct e as [s | s raw | s | s | id]; simpl.
  - destruct (sockets w !! s) as [so|] eqn:Hs; [|exact HI].
    destruct (readyState so) eqn:Hr; try exact HI.
    assert (H1 : Inv (update_socket (with_readyState OPEN) s w)).
    { apply Inv_update_socket; [intros so'; repeat split | | exact HI].
      intros so' Hs' Hc. congruence. }
    destruct (onopen so); [apply Inv_ws_onopen|]; exact H1.
  - destruct (sockets w !! s) as [so|]; [|exact HI].
    destruct (readyState so), (onmessage so); try exact HI.
    eapply Inv_same_conn; [apply same_conn_ws_onmessage | exact HI].
  - destruct (sockets w !! s) as [so|]; [|exact HI].
    destruct (readyState so), (onerror so); try exact HI;
      (eapply Inv_same_conn; [apply same_conn_ws_onerror | exact HI]).
  - destruct (sockets w !! s) as [so|] eqn:Hs; [|exact HI].
    assert (Hgo : readyState so <> CLOSED ->
                  Inv match onclose so with
                      | Some p => ws_onclose p s (update_socket (with_readyState CLOSED) s w)
                      | None => update_socket (with_readyState CLOSED) s w
                      end).
    { intros Hr.
      assert (H1 : Inv (update_socket (with_readyState CLOSED) s w)).
      { apply Inv_update_socket; [intros so'; repeat split | reflexivity | exact HI]. }
      destruct (onclose so) as [p|] eqn:Hoc; [|exact H1].
      destruct (decide (wsRef w = Some s)) as [Hw|Hw].
      - apply Inv_ws_onclose; [| |exact H1].
        + unfold readyState_of. simpl. rewrite lookup_alter_eq, Hs. reflexivity.
        + simpl. exact (no_reconnect_pending w s so (proj1 HI) Hw Hs Hr).
      - destruct (wf_superseded w (proj1 HI) s so Hs Hw) as (_ & Hn & _). congruence. }
    destruct (readyState so); try exact HI; apply Hgo; discriminate.
  - destruct (timers w !! id) as [t|]; [|exact HI].
    pose proof (Inv_clearTimeout id w HI) as H1.
    destruct (callback t) as [p ws | p]; simpl.
    + apply Inv_watchdog_callback. exact H1.
    + apply connectWebSocket_Inv. exact (proj1 H1).
Qed.

Lemma Inv_step (s : Step) (w : World) : Inv w -> Inv (step JSON_parse s w).
Proof.
  intros HI. destruct s as [e | p | |]; simpl.
  - apply Inv_deliver. exact HI.
  - apply connectWebSocket_Inv, Wf_resetState, Wf_set_isComponentMounted, HI.
  - apply Idle_Inv, cleanupWebSocket_Idle, Wf_set_isComponentMounted, HI.
  - eapply Inv_same_conn; [apply same_conn_render | exact HI].
Qed.

Lemma Wf_initial_world (p : Props) (h : gmap loc json) (n : loc) :
  Wf (initial_world p h n).
Proof.
  apply Idle_Wf. split; try reflexivity; simpl; intros s so; rewrite lookup_empty; discriminate.
Qed.

(** Every world the component can be in satisfies the invariant. *)
Lemma reachable_Inv (w : World) : reachable JSON_parse w -> Inv w.
Proof.
  induction 1 as [p h n | s w _ IH].
  - apply connectWebSocket_Inv, Wf_resetState, Wf_set_isComponentMounted, Wf_initial_world.
  - apply Inv_step. exact IH.
Qed.

End Reachable.

(** ** Reconnection *)

Lemma filter_Permutation {A : Type} (f : A -> bool) (l l' : list A) :
  Permutation l l' -> Permutation (List.filter f l) (List.filter f l').
Proof.
  induction 1 as [| x l l' _ IH | x y l | l l' l'' _ IH1 _ IH2]; simpl.
  - constructor.
  - destruct (f x); [constructor|]; exact IH.
  - destruct (f x), (f y); try reflexivity. constructor.
  - etrans; eassumption.
Qed.

Lemma filter_none {A : Type} (f : A -> bool) (l : list A) :
  (forall x, x ∈ l -> f x = false) -> List.filter f l = [].
Proof.
  induction l as [|x l IH]; intros H; simpl; [reflexivity|].
  rewrite (H x) by (left). apply IH. intros y Hy. apply H. right. exact Hy.
Qed.

Lemma pending_reconnects_none (w : World) :
  (forall id t, timers w !! id = Some t -> is_reconnect t = false) ->
  pending_reconnects w = [].
Proof.
  intros H. unfold pending_reconnects. apply filter_none.
  intros [id t] Hin. apply elem_of_map_to_list in Hin. exact (H id t Hin).
Qed.

Lemma pending_reconnects_empty (w : World) :
  timers w = ∅ -> pending_reconnects w = [].
Proof.
  intros H. apply pending_reconnects_none. intros id t. rewrite H, lookup_empty. discriminate.
Qed.

(** Unmounted, the component has no pending timer. *)
Lemma Inv_unmounted_timers (w : World) :
  Inv w -> isComponentMounted w = false -> timers w = ∅.
Proof.
  intros [HW Hu] Hm. apply map_empty. intros id.
  destruct (timers w !! id) as [t|] eqn:E; [|reflexivity].
  destruct (wf_timers w HW id t E) as [(_ & _ & s & Hs & _)|(_ & p & s & _ & Hs)];
    rewrite (Hu Hm) in Hs; discriminate.
Qed.




(** C7, amended. A close event of the socket the manager currently holds,
    while the component is mounted, schedules exactly one reconnect,
    3000 ms later, and leaves the pipeline status as it was.  After
    shutdown no reconnect is scheduled; and the close event of a socket
    that [cleanupWebSocket] has torn down (it is no longer the current
    one) schedules none either. *)
Theorem socket_close_schedules_one_reconnect
    (JSON_parse : string -> option json) (w : World) (s : sockid) (so : WebSocket) :
  reachable JSON_parse w ->
  sockets w !! s = Some so ->
  readyState so <> CLOSED ->
  let w' := deliver JSON_parse (SocketCloses s) w in
  status w' = status w /\
  (isComponentMounted w = true -> wsRef w = Some s ->
     exists id p,
       pending_reconnects w' = [(id, {| callback := Reconnect p; delay := 3000 |})] /\
       reconnectTimeoutRef w' = Some id /\ timers w !! id = None) /\
  (isComponentMounted w = false -> timers w' = ∅ /\ pending_reconnects w' = []) /\
  (wsRef w <> Some s -> timers w' = timers w).
Proof.
  intros Hreach Hs Hr w'.
  pose proof (reachable_Inv JSON_parse w Hreach) as HI.
  destruct HI as [HW Hu].
  set (w1 := update_socket (with_readyState CLOSED) s w).
  assert (Hw' : w' = match onclose so with
                     | Some p => ws_onclose p s w1
                     | None => w1
                     end).
  { subst w'. simpl. rewrite Hs. destruct (readyState so); try reflexivity. congruence. }
  assert (Hsuper : wsRef w <> Some s -> w' = w1).
  { intros Hne. rewrite Hw'.
    destruct (wf_superseded w HW s so Hs Hne) as (_ & -> & _). reflexivity. }
  repeat apply conj.
  - rewrite Hw'. destruct (onclose so) as [p|]; [|reflexivity].
    unfold ws_onclose. simpl. destruct (isComponentMounted w); simpl; [|reflexivity].
    destruct (bool_decide (wsRef w = Some s)); reflexivity.
  - intros Hm Hws.
    destruct (wf_current w HW s Hws) as (so' & p & Hs' & _ & Hoc & _).
    rewrite Hs in Hs'. injection Hs' as <-.
    assert (Hfresh : timers w !! next_timer w = None).
    { destruct (timers w !! next_timer w) as [t|] eqn:E; [|reflexivity].
      pose proof (wf_timer_ids w HW _ t E). lia. }
    exists (next_timer w), p.
    assert (Ht : timers w' = <[next_timer w := {| callback := Reconnect p; delay := 3000 |}]> (timers w)
                 /\ reconnectTimeoutRef w' = Some (next_timer w)).
    { rewrite Hw', Hoc. unfold ws_onclose. simpl. rewrite Hm. simpl.
      rewrite bool_decide_eq_true_2 by exact Hws. split; reflexivity. }
    destruct Ht as [Ht Href]. repeat apply conj; [|exact Href | exact Hfresh].
    unfold pending_reconnects. rewrite Ht.
    apply Permutation_length_1_inv. symmetry.
    etrans; [apply filter_Permutation, map_to_list_insert; exact Hfresh|].
    simpl. fold (pending_reconnects w).
    rewrite (pending_reconnects_none w (no_reconnect_pending w s so HW Hws Hs Hr)).
    reflexivity.
  - intros Hm.
    assert (Hne : wsRef w <> Some s) by (rewrite (Hu Hm); discriminate).
    assert (Ht : timers w' = ∅).
    { rewrite (Hsuper Hne). simpl. apply Inv_unmounted_timers; [split; assumption | exact Hm]. }
    split; [exact Ht | apply pending_reconnects_empty; exact Ht].
  - intros Hne. rewrite (Hsuper Hne). reflexivity.
Qed.

(** Witness for C7: the open socket of a mounted component closes. *)
Lemma socket_close_schedules_one_reconnect_witness :
  sockets demo_open !! 1 = Some demo_socket /\
  pending_reconnects (deliver RefParser.JSON_parse (SocketCloses 1) demo_open)
    = [(2, {| callback := Reconnect demo_props; delay := 3000 |})] /\
  status (deliver RefParser.JSON_parse (SocketCloses 1) demo_open) = status demo_open.
Proof.
  pose proof (socket_close_schedules_one_reconnect RefParser.JSON_parse demo_open 1 demo_socket
                (reachable_step RefParser.JSON_parse (Browser (SocketOpens 1)) demo_world
                   (reachable_mount RefParser.JSON_parse demo_props {[ 1 := unsorted ]} 2))
                eq_refl ltac:(discriminate)) as H.
  split; [reflexivity|]. split; [reflexivity | apply H].
Defined.

(** C7 as stated fails: the component is mounted, the watchdog has torn
    the first socket down, and when that socket's close event comes no
    reconnect is scheduled. *)
Lemma socket_close_counterexample :
  let w := deliver RefParser.JSON_parse (TimerFires 1) demo_world in
  let w' := deliver RefParser.JSON_parse (SocketCloses 1) w in
  isComponentMounted w = true /\
  readyState_of 1 w = Some CLOSING /\
  readyState_of 1 w' = Some CLOSED /\
  pending_reconnects w' = [] /\
  length (pending_reconnects w') <> 1%nat.
Proof.
  repeat apply conj; try reflexivity. vm_compute. discriminate.
Qed.

(** ** Superseded sockets *)

(** A socket that is not the current one has no handler left: whatever
    the browser reports about it changes no snapshot and no timer. *)
Lemma deliver_superseded
    (JSON_parse : string -> option json) (e : BrowserEvent) (s : sockid) (w : World) :
  Wf w -> socket_of e = Some s -> wsRef w <> Some s ->
  quiet w (deliver JSON_parse e w) /\ timers (deliver JSON_parse e w) = timers w.
Proof.
  intros HW He Hne.
  assert (Hd : forall so, sockets w !! s = Some so -> detached so)
    by (intros so Hs; exact (wf_superseded w HW s so Hs Hne)).
  destruct e as [s' | s' raw | s' | s' | id]; simpl in He; try discriminate;
    injection He as ->; simpl;
    (destruct (sockets w !! s) as [so|] eqn:Hs; [|split; [apply quiet_refl | reflexivity]]);
    destruct (Hd so eq_refl) as (Ho & Hc & Her & Hm); rewrite ?Ho, ?Hc, ?Her, ?Hm;
    destruct (readyState so); split;
    first [apply quiet_refl | apply quiet_update_socket | reflexivity].
Qed.

(** * Further properties of the code *)

(** ** The stable sort of the timeline *)

Lemma before_lt (a b : json) : before a b = true <-> (order_or_0 a < order_or_0 b)%Q.
Proof.
  unfold before. rewrite Qlt_alt.
  destruct (order_or_0 a ?= order_or_0 b)%Q; split; intros H; congruence.
Qed.

Lemma not_before_le (a b : json) : before a b = false -> by_order b a.
Proof.
  intros H. apply Qnot_lt_le. intros Hlt. apply before_lt in Hlt. congruence.
Qed.

Lemma insert_sorted_Permutation (x : json) (l : list json) :
  Permutation (x :: l) (insert_sorted x l).
Proof.
  induction l as [|y l IH]; simpl; [reflexivity|].
  destruct (before y x); [|reflexivity].
  etrans; [apply perm_swap|]. constructor. exact IH.
Qed.

Lemma sort_Permutation (l : list json) : Permutation l (sort l).
Proof.
  induction l as [|x l IH]; simpl; [constructor|].
  etrans; [|apply insert_sorted_Permutation]. constructor. exact IH.
Qed.

Lemma insert_sorted_Forall (P : json -> Prop) (x : json) (l : list json) :
  P x -> Forall P l -> Forall P (insert_sorted x l).
Proof.
  intros Hx Hl. induction Hl as [|y l Hy Hl IH]; simpl; [repeat constructor; exact Hx|].
  destruct (before y x); repeat constructor; assumption.
Qed.

Lemma insert_sorted_StronglySorted (x : json) (l : list json) :
  StronglySorted by_order l -> StronglySorted by_order (insert_sorted x l).
Proof.
  induction 1 as [|y l Hs IH Hy]; simpl; [repeat constructor|].
  destruct (before y x) eqn:E.
  - constructor; [exact IH|].
    apply insert_sorted_Forall; [|exact Hy].
    apply Qlt_le_weak, before_lt, E.
  - pose proof (not_before_le _ _ E) as Hxy.
    constructor; [constructor; assumption|].
    constructor; [exact Hxy|].
    eapply Forall_impl; [exact Hy|].
    intros z Hz. unfold by_order in *. eapply Qle_trans; eassumption.
Qed.

Lemma sort_StronglySorted (l : list json) : StronglySorted by_order (sort l).
Proof.
  induction l as [|x l IH]; simpl; [constructor|].
  apply insert_sorted_StronglySorted, IH.
Qed.

Lemma with_order_insert_sorted (q : Q) (x : json) (l : list json) :
  with_order q (insert_sorted x l) = with_order q (x :: l).
Proof.
  unfold with_order. induction l as [|y l IH]; simpl; [reflexivity|].
  destruct (before y x) eqn:E; [|reflexivity].
  simpl. rewrite IH. simpl.
  destruct (Qeq_bool (order_or_0 x) q) eqn:Ex; [|reflexivity].
  destruct (Qeq_bool (order_or_0 y) q) eqn:Ey; [|reflexivity].
  apply Qeq_bool_iff in Ex, Ey. apply before_lt in E.
  rewrite Ex, Ey in E. exfalso. exact (Qlt_irrefl q E).
Qed.


(** X1. [components.sort(...)] loses and duplicates nothing: what
    [render] leaves in the stored array is a permutation of what was
    there. *)
Theorem render_permutes_stored_components (w : World) (l : list json) :
  heap w !! components w = Some (JArr l) ->
  forallb sortable l = true ->
  exists l', stored_components (fst (render w)) = Some (JArr l') /\ Permutation l l'.
Proof.
  intros H _. exists (sort l). split; [apply render_stores_sorted; exact H | apply sort_Permutation].
Qed.

Lemma render_permutes_stored_components_witness :
  exists l', stored_components (fst (render first_render)) = Some (JArr l') /\
             Permutation [component "B" 2; component "A" 1] l'.
Proof.
  exact (render_permutes_stored_components first_render
           [component "B" 2; component "A" 1] eq_refl eq_refl).
Defined.

(** X2. After [render] the stored array is in ascending [order]: every
    component stands before all those the comparator does not put
    strictly in front of it. *)
Theorem render_orders_stored_components (w : World) (l : list json) :
  heap w !! components w = Some (JArr l) ->
  forallb sortable l = true ->
  exists l', stored_components (fst (render w)) = Some (JArr l') /\
             StronglySorted by_order l'.
Proof.
  intros H _. exists (sort l). split; [apply render_stores_sorted; exact H | apply sort_StronglySorted].
Qed.

Lemma render_orders_stored_components_witness :
  exists l', stored_components (fst (render first_render)) = Some (JArr l') /\
             StronglySorted by_order l'.
Proof.
  exact (render_orders_stored_components first_render
           [component "B" 2; component "A" 1] eq_refl eq_refl).
Defined.

(** X3. The sort is stable: the components of any one [order] keep the
    sequence in which they arrived. *)
Theorem sort_keeps_arrival_order (q : Q) (l : list json) :
  forallb sortable l = true ->
  with_order q (sort l) = with_order q l.
Proof.
  intros _. induction l as [|x l IH]; simpl; [reflexivity|].
  rewrite with_order_insert_sorted. unfold with_order in *. simpl. rewrite IH. reflexivity.
Qed.

Lemma sort_keeps_arrival_order_witness :
  with_order (inject_Z 1)
    (sort [component "B" 2; component "A" 1; component "C" 1; component "D" 0])
  = [component "A" 1; component "C" 1].
Proof.
  rewrite (sort_keeps_arrival_order (inject_Z 1)
             [component "B" 2; component "A" 1; component "C" 1; component "D" 0] eq_refl).
  reflexivity.
Defined.



(** ** More on inbound frames *)

(** X5. The handler stores whatever truthy value [components] holds: if
    it is not an array, the next render calls a [sort] that is not there
    and throws. *)
Theorem non_array_components_break_render
    (JSON_parse : string -> option json) (raw : string)
    (o : list (string * json)) (v : json) (w : World) :
  JSON_parse raw = Some (JObj o) ->
  assoc "components" o = Some v ->
  truthy v = true ->
  is_array v = false ->
  isComponentMounted w = true ->
  stored_components (ws_onmessage JSON_parse raw w) = Some v /\
  snd (render (ws_onmessage JSON_parse raw w)) = Throw TypeError.
Proof.
  intros Hp Hc Ht Ha Hm.
  assert (Hs : stored_components (ws_onmessage JSON_parse raw w) = Some v).
  { unfold ws_onmessage, try_catch, onmessage_try, parse, bind, stored_components.
    rewrite Hp, Hm. simpl. rewrite Hc. simpl. rewrite Ht. simpl.
    case_props o; apply lookup_insert_eq. }
  split; [exact Hs|].
  unfold render. unfold stored_components in Hs. rewrite Hs.
  destruct v; try reflexivity. discriminate.
Qed.

Lemma non_array_components_break_render_witness :
  snd (render (ws_onmessage RefParser.JSON_parse
                 (RefParser.frame "{'components': {'name': 'ingest'}}") demo_open))
    = Throw TypeError.
Proof.
  apply (non_array_components_break_render RefParser.JSON_parse
           (RefParser.frame "{'components': {'name': 'ingest'}}")
           [("components", JObj [("name", JStr "ingest")])]
           (JObj [("name", JStr "ingest")]) demo_open
           eq_refl eq_refl eq_refl eq_refl eq_refl).
Defined.

(** X6. A frame that is valid JSON but a number, a string, a boolean or
    an array has none of the fields: both handlers return without any
    effect, not even a line on the console. *)
Theorem scalar_frame_is_ignored
    (JSON_parse : string -> option json) (raw : string) (data : json)
    (w : World) (st : App.State) :
  JSON_parse raw = Some data ->
  is_scalar_or_array data = true ->
  ws_onmessage JSON_parse raw w = w /\
  App.handleMessage JSON_parse raw st = (st, Normal tt).
Proof.
  intros Hp Hd.
  unfold ws_onmessage, try_catch, onmessage_try, parse, App.handleMessage, bind.
  rewrite Hp.
  destruct data; try discriminate; simpl;
    (split; [destruct (isComponentMounted w); reflexivity | reflexivity]).
Qed.

Lemma scalar_frame_is_ignored_witness :
  ws_onmessage RefParser.JSON_parse (RefParser.frame "[1, 2]") demo_open = demo_open /\
  App.handleMessage RefParser.JSON_parse (RefParser.frame "[1, 2]") App.initial
    = (App.initial, Normal tt).
Proof.
  exact (scalar_frame_is_ignored RefParser.JSON_parse (RefParser.frame "[1, 2]")
           (JArr [JNum (inject_Z 1); JNum (inject_Z 2)]) demo_open App.initial
           eq_refl eq_refl).
Defined.

(** X7. The frame [null] parses, and then [data.status] throws a
    [TypeError]: the monitor catches and logs it, [App]'s handler lets
    it out; neither changes its state. *)
Theorem null_frame_throws_TypeError
    (JSON_parse : string -> option json) (raw : string) (w : World) (st : App.State) :
  JSON_parse raw = Some JNull ->
  ws_onmessage JSON_parse raw w
    = (if isComponentMounted w then log (ConsoleParseFailure TypeError) w else w) /\
  App.handleMessage JSON_parse raw st = (st, Throw TypeError).
Proof.
  intros Hp. split; [apply ws_onmessage_null; exact Hp|].
  unfold App.handleMessage, bind. rewrite Hp. reflexivity.
Qed.

Lemma null_frame_throws_TypeError_witness :
  App.handleMessage RefParser.JSON_parse (RefParser.frame "null") App.initial
    = (App.initial, Throw TypeError).
Proof.
  apply (null_frame_throws_TypeError RefParser.JSON_parse (RefParser.frame "null")
           demo_open App.initial eq_refl).
Defined.

(** X8. Handling the same frame a second time changes nothing a reader
    sees: status, data map and connected flag are those of the first
    time, and the stored components have the same content. *)
Theorem replayed_frame_changes_nothing
    (JSON_parse : string -> option json) (raw : string) (w : World) :
  let w1 := ws_onmessage JSON_parse raw w in
  let w2 := ws_onmessage JSON_parse raw w1 in
  status w2 = status w1 /\
  pipelineData w2 = pipelineData w1 /\
  wsConnected w2 = wsConnected w1 /\
  stored_components w2 = stored_components w1.
Proof.
  unfold ws_onmessage, try_catch, onmessage_try, parse, bind, stored_components.
  destruct (isComponentMounted w) eqn:Hm; simpl; [|rewrite Hm; simpl; repeat split; reflexivity].
  destruct (JSON_parse raw) as [[| b | q | s | l | o]|]; simpl; rewrite ?Hm; simpl;
    try (repeat split; reflexivity).
  case_props o; rewrite ?Hm; simpl; repeat apply conj; try reflexivity;
    rewrite !lookup_insert_eq; reflexivity.
Qed.

(** X9. The same for [App]'s handler: a second delivery of a frame ends
    as the first did and leaves every field as the first left it. *)
Theorem handleMessage_replayed
    (JSON_parse : string -> option json) (raw : string) (st : App.State) :
  let r1 := App.handleMessage JSON_parse raw st in
  let r2 := App.handleMessage JSON_parse raw (fst r1) in
  snd r2 = snd r1 /\
  App.status (fst r2) = App.status (fst r1) /\
  App.pipelineId (fst r2) = App.pipelineId (fst r1) /\
  App.components (fst r2) = App.components (fst r1) /\
  App.pipelineData (fst r2) = App.pipelineData (fst r1).
Proof.
  unfold App.handleMessage, bind.
  destruct (JSON_parse raw) as [[| b | q | s | l | o]|]; simpl;
    try (repeat split; reflexivity).
  case_props o; repeat split; reflexivity.
Qed.

(** ** More on the data mapper *)

Lemma append_cons (c : ascii) (a x : string) :
  (String c a ++ x)%string = String c (a ++ x)%string.
Proof. reflexivity. Qed.

Lemma split_nonempty (sep : ascii) (s : string) : split sep s <> [].
Proof.
  induction s as [|c s IH]; simpl; [discriminate|].
  destruct (Ascii.eqb c sep); [discriminate|].
  destruct (split sep s); [contradiction | discriminate].
Qed.

Lemma split_length_cons (sep c : ascii) (s : string) :
  (length (split sep s) <= length (split sep (String c s)))%nat.
Proof.
  simpl. destruct (Ascii.eqb c sep); simpl; [lia|].
  destruct (split sep s); simpl; lia.
Qed.

Lemma split_app_sep_length (a b : string) :
  (2 <= length (split "." (a ++ String "." b)))%nat.
Proof.
  induction a as [|c a IH].
  - change (2 <= length (EmptyString :: split "." b))%nat. simpl.
    pose proof (split_nonempty "." b). destruct (split "." b); [contradiction | simpl; lia].
  - rewrite append_cons. etrans; [exact IH | apply split_length_cons].
Qed.

Lemma prefix_dot_second_segment (name k : string) :
  String.prefix (name ++ ".") k = true -> exists x, nth_error (split "." k) 1 = Some x.
Proof.
  intros Hp. rewrite (prefix_strip _ _ Hp), append_dot.
  pose proof (split_app_sep_length name (strip (String.length (name ++ ".")) k)) as Hlen.
  destruct (split "." _) as [|x [|y l]]; simpl in *; [lia | lia | eauto].
Qed.

(** X10. Every field [getComponentData] returns has a key: the prefix
    test leaves only keys with a dot in them, so [key.split('.')[1]] is
    never [undefined], whatever the component name and the data map. *)
Theorem getComponentData_key_defined (componentName : string) (w : World) (f : Field) :
  In f (getComponentData componentName w) -> exists k, key f = Some k.
Proof.
  unfold getComponentData, startsWith. intros Hin.
  apply in_map_iff in Hin as ([k v] & <- & Hkv).
  apply filter_In in Hkv as [_ Hp]. simpl in *.
  exact (prefix_dot_second_segment componentName k Hp).
Qed.

Lemma getComponentData_key_defined_witness :
  exists k, key {| key := Some "rows"; value := JStr "3" |} = Some k.
Proof.
  apply (getComponentData_key_defined "parser" (setPipelineData nested_data demo_open)).
  left. reflexivity.
Defined.

Lemma append_nil (x : string) : (EmptyString ++ x)%string = x.
Proof. reflexivity. Qed.

Lemma prefix_cons (c c' : ascii) (a b : string) :
  String.prefix (String c a) (String c' b)
    = if Ascii.ascii_dec c c' then String.prefix a b else false.
Proof. simpl. destruct (Ascii.ascii_dec c c'); reflexivity. Qed.

Lemma dotless_prefix_same (a b f : string) :
  dotless a = true -> dotless b = true ->
  String.prefix (a ++ ".") (b ++ String "." f) = true -> a = b.
Proof.
  revert b. induction a as [|c a IH]; intros [|c' b] Ha Hb Hp;
    rewrite ?append_cons, ?append_nil in Hp;
    try rewrite prefix_cons in Hp; simpl in Ha, Hb.
  - reflexivity.
  - destruct (Ascii.ascii_dec "." c') as [<-|]; [|discriminate].
    simpl in Hb. discriminate.
  - destruct (Ascii.ascii_dec c ".") as [->|]; [|discriminate].
    simpl in Ha. discriminate.
  - destruct (Ascii.ascii_dec c c') as [<-|]; [|discriminate].
    apply andb_prop in Ha as [_ Ha]. apply andb_prop in Hb as [_ Hb].
    f_equal. exact (IH b Ha Hb Hp).
Qed.

(** X11. With component names that have no dot, the fields of one
    component are not those of another: an entry added under
    ["<other>."] does not change what [getComponentData(name)]
    returns. *)
Theorem getComponentData_ignores_other_component
    (name other field : string) (v : json) (o : list (string * json)) (w : World) :
  dotless name = true -> dotless other = true -> name <> other ->
  getComponentData name (setPipelineData (JObj ((other ++ String "." field, v)%string :: o)) w)
    = getComponentData name (setPipelineData (JObj o) w).
Proof.
  intros Hn Ho Hne. unfold getComponentData, startsWith. simpl.
  destruct (String.prefix (name ++ ".") (other ++ String "." field)) eqn:Hp; [|reflexivity].
  destruct Hne. exact (dotless_prefix_same name other field Hn Ho Hp).
Qed.

Lemma getComponentData_ignores_other_component_witness :
  getComponentData "parser"
    (setPipelineData (JObj [("joiner.rows", JStr "5"); ("parser.rows", JStr "10")]) demo_open)
  = getComponentData "parser" (setPipelineData (JObj [("parser.rows", JStr "10")]) demo_open).
Proof.
  exact (getComponentData_ignores_other_component "parser" "joiner" "rows" (JStr "5")
           [("parser.rows", JStr "10")] demo_open eq_refl eq_refl ltac:(discriminate)).
Defined.

(** ** More on the connection manager *)

(** X12. [cleanupWebSocket] is idempotent: a second call finds the refs
    empty and does nothing. *)
Theorem cleanupWebSocket_idempotent (w : World) :
  cleanupWebSocket (cleanupWebSocket w) = cleanupWebSocket w.
Proof.
  destruct (cleanupWebSocket_refs w) as (R1 & R2 & R3).
  unfold cleanupWebSocket at 1. rewrite R2, R3, R1. reflexivity.
Qed.

(** X13. At most one socket is live: in every state the component can
    reach, a socket that still has a handler in any of its four slots is
    the one [wsRef] holds. *)
Theorem only_current_socket_has_handlers
    (JSON_parse : string -> option json) (w : World) (s : sockid) (so : WebSocket) :
  reachable JSON_parse w ->
  sockets w !! s = Some so ->
  has_handler so ->
  wsRef w = Some s.
Proof.
  intros Hreach Hs Hh.
  destruct (reachable_Inv JSON_parse w Hreach) as [HW _].
  destruct (decide (wsRef w = Some s)) as [Hw|Hw]; [exact Hw|].
  destruct (wf_superseded w HW s so Hs Hw) as (H1 & H2 & H3 & H4).
  destruct Hh as [H|[H|[H|H]]]; contradiction.
Qed.

Lemma only_current_socket_has_handlers_witness :
  wsRef demo_open = Some 1.
Proof.
  apply (only_current_socket_has_handlers RefParser.JSON_parse demo_open 1 demo_socket
           (reachable_step RefParser.JSON_parse (Browser (SocketOpens 1)) demo_world
              (reachable_mount RefParser.JSON_parse demo_props {[ 1 := unsorted ]} 2))
           eq_refl).
  left. discriminate.
Defined.

(** X14. No duplicate timers: in every reachable state at most one
    reconnect timer and at most one watchdog are pending; the reconnect
    timer is the one in [reconnectTimeoutRef] and waits 3000 ms, the
    watchdog the one in [connectionTimeoutRef] and waits 5000 ms. *)
Theorem pending_timers_are_the_refs
    (JSON_parse : string -> option json) (w : World) (id : timerid) (t : Timer) :
  reachable JSON_parse w ->
  timers w !! id = Some t ->
  (is_reconnect t = true /\ reconnectTimeoutRef w = Some id /\ delay t = 3000%Z) \/
  (is_reconnect t = false /\ connectionTimeoutRef w = Some id /\ delay t = 5000%Z).
Proof.
  intros Hreach Ht.
  destruct (reachable_Inv JSON_parse w Hreach) as [HW _].
  destruct (wf_timers w HW id t Ht) as [(Hr & (p & ->) & _)|(Hc & p & s & -> & _)];
    [left | right]; repeat split; assumption.
Qed.

Lemma pending_timers_are_the_refs_witness :
  connectionTimeoutRef demo_world = Some 1.
Proof.
  destruct (pending_timers_are_the_refs RefParser.JSON_parse demo_world 1
              {| callback := Watchdog demo_props 1; delay := 5000 |}
              (reachable_mount RefParser.JSON_parse demo_props {[ 1 := unsorted ]} 2)
              eq_refl) as [(H & _)|(_ & H & _)]; [discriminate | exact H].
Defined.

(** X15. No inbound frame, whatever it holds, reaches the connection:
    refs, sockets, timers and the mounted flag are as before. *)
Theorem message_leaves_connection_alone
    (JSON_parse : string -> option json) (s : sockid) (raw : string) (w : World) :
  same_conn w (deliver JSON_parse (SocketMessage s raw) w).
Proof.
  simpl. destruct (sockets w !! s) as [so|]; [|apply same_conn_refl].
  destruct (readyState so), (onmessage so); try apply same_conn_refl.
  apply same_conn_ws_onmessage.
Qed.

(** X16. A socket error, reported to a mounted component, sets the status
    to [error] and nothing else of the snapshot; by itself it closes no
    socket and starts no timer: a reconnect follows only from the close
    event. *)
Theorem socket_error_sets_status_only
    (JSON_parse : string -> option json) (s : sockid) (so : WebSocket) (p : Props) (w : World) :
  sockets w !! s = Some so ->
  readyState so <> CLOSED ->
  onerror so = Some p ->
  isComponentMounted w = true ->
  let w' := deliver JSON_parse (SocketError s) w in
  status w' = JStr "error" /\
  components w' = components w /\ pipelineData w' = pipelineData w /\
  wsConnected w' = wsConnected w /\ heap w' = heap w /\
  same_conn w w'.
Proof.
  intros Hs Hr He Hm. simpl. rewrite Hs, He.
  unfold ws_onerror. rewrite Hm.
  destruct (readyState so); try congruence; simpl; repeat apply conj; try reflexivity;
    split; reflexivity.
Qed.

Lemma socket_error_sets_status_only_witness :
  status (deliver RefParser.JSON_parse (SocketError 1) demo_open) = JStr "error" /\
  wsConnected (deliver RefParser.JSON_parse (SocketError 1) demo_open) = true.
Proof.
  pose proof (socket_error_sets_status_only RefParser.JSON_parse 1 demo_socket demo_props
                demo_open eq_refl ltac:(discriminate) eq_refl eq_refl) as H.
  split; [apply H | reflexivity].
Defined.

(** X17. A superseded socket is neutral: whatever the browser reports
    about a socket that is not the current one changes neither the
    snapshot nor the stored arrays nor any timer, and creates nothing. *)
Theorem superseded_socket_is_neutral
    (JSON_parse : string -> option json) (e : BrowserEvent) (s : sockid) (w : World) :
  reachable JSON_parse w ->
  socket_of e = Some s ->
  wsRef w <> Some s ->
  let w' := deliver JSON_parse e w in
  snapshot w' = snapshot w /\ heap w' = heap w /\
  timers w' = timers w /\ next_timer w' = next_timer w /\
  next_socket w' = next_socket w.
Proof.
  intros Hreach He Hne w'.
  destruct (reachable_Inv JSON_parse w Hreach) as [HW _].
  destruct (deliver_superseded JSON_parse e s w HW He Hne) as [Hq Ht].
  repeat apply conj.
  - exact (quiet_snapshot _ _ Hq).
  - exact (quiet_heap _ _ Hq).
  - exact Ht.
  - exact (quiet_next_timer _ _ Hq).
  - exact (quiet_next_socket _ _ Hq).
Qed.

Lemma superseded_socket_is_neutral_witness :
  snapshot (deliver RefParser.JSON_parse (SocketCloses 1) demo_resubscribed)
    = snapshot demo_resubscribed.
Proof.
  assert (Hreach : reachable RefParser.JSON_parse demo_resubscribed).
  { exact (reachable_step RefParser.JSON_parse (RunEffect demo_props)
             (step RefParser.JSON_parse RunCleanup demo_world)
             (reachable_step RefParser.JSON_parse RunCleanup demo_world
                (reachable_mount RefParser.JSON_parse demo_props {[ 1 := unsorted ]} 2))). }
  assert (Hne : wsRef demo_resubscribed <> Some 1) by (vm_compute; discriminate).
  pose proof (superseded_socket_is_neutral RefParser.JSON_parse (SocketCloses 1) 1
                demo_resubscribed Hreach eq_refl Hne) as H.
  cbv zeta in H. destruct H as (H & _). exact H.
Defined.

(** ** Socket states and the connected flag *)

Lemma wsConnected_cleanupWebSocket (w : World) :
  wsConnected (cleanupWebSocket w) = wsConnected w.
Proof.
  exact (f_equal snap_connected (quiet_snapshot _ _ (quiet_cleanupWebSocket w))).
Qed.

Lemma torn_down_closing (so : WebSocket) : closing (torn_down so).
Proof.
  unfold closing, torn_down. simpl. destruct (readyState so); auto.
Qed.

Lemma cleanupWebSocket_all_closing (w : World) :
  (forall s so, sockets w !! s = Some so -> wsRef w <> Some s -> closing so) ->
  forall s so, sockets (cleanupWebSocket w) !! s = Some so -> closing so.
Proof.
  intros Ha s so. rewrite cleanupWebSocket_sockets. case_decide as Hd.
  - destruct (sockets w !! s) as [so0|]; simpl; [|discriminate].
    intros [= <-]. apply torn_down_closing.
  - intros Hs. exact (Ha s so Hs Hd).
Qed.

Lemma Inv2_same_conn (w w' : World) :
  same_conn w w' -> wsConnected w' = wsConnected w -> Inv2 w -> Inv2 w'.
Proof.
  intros [Hws Hr Hc Hm Hs Hns Ht Hnt] Hf [A B C].
  split; unfold readyState_of, is_open, readyState_of in *;
    rewrite ?Hws, ?Hs, ?Hm, ?Ht, ?Hf; assumption.
Qed.

Lemma Inv2_clearTimeout (id : timerid) (w : World) : Inv2 w -> Inv2 (clearTimeout id w).
Proof.
  intros [A B C]. split; try assumption.
  intros id' t p s Ht. simpl in Ht.
  apply lookup_delete_Some in Ht as [_ Ht]. exact (C id' t p s Ht).
Qed.

Lemma cleanupWebSocket_Inv2 (w : World) :
  Wf w ->
  (forall s so, sockets w !! s = Some so -> wsRef w <> Some s -> closing so) ->
  (isComponentMounted w = true -> wsConnected w = false) ->
  Inv2 (cleanupWebSocket w).
Proof.
  intros HW Ha Hf. pose proof (cleanupWebSocket_Idle w HW) as HI.
  split.
  - intros s so Hs _. exact (cleanupWebSocket_all_closing w Ha s so Hs).
  - rewrite (quiet_mounted _ _ (quiet_cleanupWebSocket w)), wsConnected_cleanupWebSocket.
    intros Hm. rewrite (Hf Hm), (idle_wsRef _ HI). split; [discriminate|].
    intros (s & Hs & _). discriminate.
  - intros id t p s. rewrite (idle_timers _ HI), lookup_empty. discriminate.
Qed.

Lemma connectWebSocket_Inv2 (p : Props) (w : World) :
  Wf w ->
  (forall s so, sockets w !! s = Some so -> wsRef w <> Some s -> closing so) ->
  (isComponentMounted w = true -> wsConnected w = false) ->
  Inv2 (connectWebSocket p w).
Proof.
  intros HW Ha Hf.
  pose proof (cleanupWebSocket_Idle w HW) as HI.
  pose proof (cleanupWebSocket_all_closing w Ha) as Hcl.
  pose proof (cleanupWebSocket_Inv2 w HW Ha Hf) as H2.
  pose proof (wsConnected_cleanupWebSocket w) as Hflag.
  pose proof (quiet_mounted _ _ (quiet_cleanupWebSocket w)) as Hmq.
  unfold connectWebSocket.
  destruct (isComponentMounted (cleanupWebSocket w)) eqn:Hm; simpl; [|exact H2].
  set (w1 := cleanupWebSocket w) in *.
  assert (Hnew : sockets w1 !! next_socket w1 = None).
  { destruct (sockets w1 !! next_socket w1) as [so|] eqn:E; [|reflexivity].
    pose proof (idle_socket_ids _ HI _ so E). lia. }
  split; simpl.
  - intros s so Hs Hne. rewrite lookup_alter_ne in Hs by congruence.
    rewrite lookup_insert_ne in Hs by congruence. exact (Hcl s so Hs).
  - intros _. rewrite Hflag, (Hf (eq_sym Hmq)). split; [discriminate|].
    intros (s & [= <-] & Hr). unfold readyState_of in Hr. simpl in Hr.
    rewrite lookup_alter_eq, lookup_insert_eq in Hr. discriminate.
  - intros id t p0 s. rewrite (idle_timers _ HI), lookup_insert.
    case_decide; [|rewrite lookup_empty; discriminate].
    intros [= <-]. simpl. intros [= <- <-].
    unfold is_open, readyState_of. simpl. rewrite lookup_alter_eq, lookup_insert_eq. reflexivity.
Qed.

Lemma mounted_of_current (w : World) (s : sockid) :
  Inv w -> wsRef w = Some s -> isComponentMounted w = true.
Proof.
  intros [_ Hu] Hs. destruct (isComponentMounted w); [reflexivity|].
  rewrite Hu in Hs by reflexivity. discriminate.
Qed.

Lemma no_watchdog_after_clear (w : World) (id : timerid) (t : Timer) (p : Props) (s : sockid) :
  Wf w ->
  match connectionTimeoutRef w with
  | Some c => delete c (timers w)
  | None => timers w
  end !! id = Some t ->
  callback t <> Watchdog p s.
Proof.
  intros HW Ht Hcb.
  assert (Hpend : timers w !! id = Some t /\ connectionTimeoutRef w <> Some id).
  { destruct (connectionTimeoutRef w) as [c|]; [|split; [exact Ht | discriminate]].
    apply lookup_delete_Some in Ht as [Hne Ht]. split; [exact Ht | congruence]. }
  destruct Hpend as [Hpend Hne].
  destruct (wf_timers w HW id t Hpend) as [(_ & (p0 & ->) & _)|(Hc & _)];
    [discriminate | contradiction].
Qed.

Lemma wsConnected_ws_onmessage
    (JSON_parse : string -> option json) (raw : string) (w : World) :
  wsConnected (ws_onmessage JSON_parse raw w) = wsConnected w.
Proof.
  unfold ws_onmessage, try_catch, onmessage_try, parse, bind.
  destruct (isComponentMounted w); simpl; [|reflexivity].
  destruct (JSON_parse raw) as [[| b | q | s | l | o]|]; simpl; try reflexivity.
  case_props o; reflexivity.
Qed.

Section SocketStates.

Variable JSON_parse : string -> option json.

Lemma Inv2_opens (w : World) (s : sockid) (so : WebSocket) :
  Inv w -> Inv2 w ->
  sockets w !! s = Some so -> readyState so = CONNECTING ->
  Inv2 match onopen so with
       | Some p => ws_onopen p s (update_socket (with_readyState OPEN) s w)
       | None => update_socket (with_readyState OPEN) s w
       end.
Proof.
  intros HI [A B C] Hs Hr.
  assert (Hcur : wsRef w = Some s).
  { destruct (decide (wsRef w = Some s)) as [H|H]; [exact H|].
    destruct (A s so Hs H) as [H'|H']; congruence. }
  pose proof (mounted_of_current w s HI Hcur) as Hm.
  destruct (wf_current w (proj1 HI) s Hcur) as (so' & p & Hs' & Hop & _).
  rewrite Hs in Hs'. injection Hs' as <-. rewrite Hop.
  unfold ws_onopen. simpl. rewrite Hm.
  assert (Hlook : forall W,
            sockets (ws_send s (Handshake (pipeline_id p)) W) = alter
              (fun so0 => match readyState so0 with OPEN => with_sent (Handshake (pipeline_id p)) so0 | _ => so0 end)
              s (sockets W)) by reflexivity.
  split.
  - intros s' so'0 Hs'0 Hne.
    assert (Hns : s <> s') by (destruct (connectionTimeoutRef w); simpl in Hne; congruence).
    rewrite Hlook in Hs'0. rewrite lookup_alter_ne in Hs'0 by exact Hns.
    assert (Hold : sockets w !! s' = Some so'0).
    { destruct (connectionTimeoutRef w); simpl in Hs'0;
        rewrite lookup_alter_ne in Hs'0 by exact Hns; exact Hs'0. }
    apply (A s' so'0 Hold). congruence.
  - intros _. split; [|destruct (connectionTimeoutRef w); reflexivity].
    intros _. exists s. split; [destruct (connectionTimeoutRef w); exact Hcur|].
    unfold readyState_of. rewrite Hlook, lookup_alter_eq.
    destruct (connectionTimeoutRef w); simpl; rewrite lookup_alter_eq, Hs; reflexivity.
  - intros id t p0 s0 Ht Hcb. exfalso.
    apply (no_watchdog_after_clear w id t p0 s0 (proj1 HI)); [|exact Hcb].
    destruct (connectionTimeoutRef w); exact Ht.
Qed.

Lemma Inv2_closes (w : World) (s : sockid) (so : WebSocket) :
  Inv w -> Inv2 w ->
  sockets w !! s = Some so ->
  Inv2 match onclose so with
       | Some p => ws_onclose p s (update_socket (with_readyState CLOSED) s w)
       | None => update_socket (with_readyState CLOSED) s w
       end.
Proof.
  intros HI [A B C] Hs.
  set (w1 := update_socket (with_readyState CLOSED) s w).
  assert (Hsock : forall s' so', sockets w1 !! s' = Some so' ->
            (s' = s /\ readyState so' = CLOSED) \/ (s' <> s /\ sockets w !! s' = Some so')).
  { intros s' so' H. subst w1. simpl in H.
    apply lookup_alter_Some in H as [(<- & so0 & _ & ->)|[Hne H]]; [left | right]; auto. }
  assert (Hopen : forall s0, is_open s0 w1 = true -> is_open s0 w = true /\ s0 <> s).
  { intros s0. unfold is_open, readyState_of. subst w1. simpl.
    destruct (decide (s = s0)) as [<-|Hne].
    - rewrite lookup_alter_eq, Hs. discriminate.
    - rewrite lookup_alter_ne by exact Hne. intros H. split; [exact H | congruence]. }
  assert (H1 : Inv2 w1 \/ wsRef w = Some s).
  { destruct (decide (wsRef w = Some s)) as [Hc|Hc]; [right; exact Hc | left].
    split.
    - intros s' so' Hs' Hne. destruct (Hsock s' so' Hs') as [[_ Hr]|[_ Hold]];
        [right; exact Hr | exact (A s' so' Hold Hne)].
    - intros Hm. etrans; [exact (B Hm)|].
      split; intros (s0 & Hw & Hr); exists s0; (split; [exact Hw|]);
        unfold readyState_of in *; subst w1; simpl in *;
        rewrite lookup_alter_ne in * by congruence; exact Hr.
    - intros id t p s0 Ht Hcb. specialize (C id t p s0 Ht Hcb).
      destruct (is_open s0 w1) eqn:E; [|reflexivity].
      destruct (Hopen s0 E) as [Ho _]. congruence. }
  destruct (onclose so) as [p|] eqn:Hoc.
  2: { destruct H1 as [H1|Hc]; [exact H1|].
       destruct (wf_current w (proj1 HI) s Hc) as (so' & p & Hs' & _ & Hoc' & _). congruence. }
  assert (Hcur : wsRef w = Some s).
  { destruct (decide (wsRef w = Some s)) as [H|H]; [exact H|].
    destruct (wf_superseded w (proj1 HI) s so Hs H) as (_ & Hn & _). congruence. }
  pose proof (mounted_of_current w s HI Hcur) as Hm.
  unfold ws_onclose. simpl. rewrite Hm. simpl.
  rewrite bool_decide_eq_true_2 by exact Hcur.
  split; simpl.
  - intros s' so' Hs' Hne. destruct (Hsock s' so' Hs') as [[_ Hr]|[_ Hold]];
      [right; exact Hr | exact (A s' so' Hold Hne)].
  - intros _. split; [discriminate|].
    intros (s0 & Hw & Hr). rewrite Hcur in Hw. injection Hw as <-.
    unfold readyState_of in Hr. simpl in Hr. rewrite lookup_alter_eq, Hs in Hr. discriminate.
  - intros id t p0 s0 Ht Hcb.
    apply lookup_insert_Some in Ht as [[_ <-]|[_ Ht]]; [discriminate|].
    specialize (C id t p0 s0 Ht Hcb).
    destruct (is_open s0 w1) eqn:E; [|exact E].
    destruct (Hopen s0 E) as [Ho _]. congruence.
Qed.

Lemma Inv2_deliver (e : BrowserEvent) (w : World) :
  Inv w -> Inv2 w -> Inv2 (deliver JSON_parse e w).
Proof.
  intros HI H2. destruct e as [s | s raw | s | s | id].
  - simpl. destruct (sockets w !! s) as [so|] eqn:Hs; [|exact H2].
    destruct (readyState so) eqn:Hr; try exact H2.
    exact (Inv2_opens w s so HI H2 Hs Hr).
  - eapply Inv2_same_conn; [apply message_leaves_connection_alone| |exact H2].
    simpl. destruct (sockets w !! s) as [so|]; [|reflexivity].
    destruct (readyState so), (onmessage so); try reflexivity.
    apply wsConnected_ws_onmessage.
  - simpl. destruct (sockets w !! s) as [so|]; [|exact H2].
    destruct (readyState so), (onerror so) as [p|]; try exact H2;
      (eapply Inv2_same_conn; [apply same_conn_ws_onerror | | exact H2];
       unfold ws_onerror; destruct (isComponentMounted w); reflexivity).
  - simpl. destruct (sockets w !! s) as [so|] eqn:Hs; [|exact H2].
    pose proof (Inv2_closes w s so HI H2 Hs) as Hc.
    destruct (readyState so); try exact Hc. exact H2.
  - simpl. destruct (timers w !! id) as [t|] eqn:Ht; [|exact H2].
    pose proof (Inv_clearTimeout id w HI) as HI1.
    pose proof (Inv2_clearTimeout id w H2) as H21.
    destruct (callback t) as [p s0 | p] eqn:Hcb; simpl.
    + unfold watchdog_callback. destruct (is_open s0 (clearTimeout id w)) eqn:Ho; [exact H21|].
      assert (Hcur : wsRef w = Some s0).
      { destruct (wf_timers w (proj1 HI) id t Ht) as [(_ & (p0 & ->) & _)|(_ & p0 & s1 & -> & Hw)];
          [discriminate|]. simpl in Hcb. congruence. }
      assert (H3 : Inv2 (cleanupWebSocket (clearTimeout id w))).
      { apply cleanupWebSocket_Inv2; [exact (proj1 HI1) | apply H21 |].
        intros Hm. destruct (wsConnected (clearTimeout id w)) eqn:Hf; [|reflexivity].
        apply (inv_connected_flag _ H21 Hm) in Hf as (s1 & Hw & Hr).
        simpl in Hw. rewrite Hcur in Hw. injection Hw as <-.
        unfold is_open in Ho. rewrite Hr in Ho. discriminate. }
      destruct (isComponentMounted (cleanupWebSocket (clearTimeout id w))); [|exact H3].
      eapply Inv2_same_conn; [| |exact H3]; [split; reflexivity | reflexivity].
    + apply connectWebSocket_Inv2; [exact (proj1 HI1) | apply H21 |].
      intros Hm. destruct (wsConnected (clearTimeout id w)) eqn:Hf; [|reflexivity].
      apply (inv_connected_flag _ H21 Hm) in Hf as (s1 & Hw & Hr).
      destruct (wf_timers w (proj1 HI) id t Ht) as [(_ & _ & s2 & Hw2 & Hcl)|(_ & p0 & s2 & -> & _)];
        [|discriminate].
      simpl in Hw. rewrite Hw2 in Hw. injection Hw as <-.
      unfold readyState_of in *. simpl in Hr. congruence.
Qed.

End SocketStates.

Section ReachableStates.

Variable JSON_parse : string -> option json.

Lemma Inv2_step (s : Step) (w : World) : Inv w -> Inv2 w -> Inv2 (step JSON_parse s w).
Proof.
  intros HI H2. destruct s as [e | p | |]; simpl.
  - apply Inv2_deliver; assumption.
  - apply connectWebSocket_Inv2.
    + apply Wf_resetState, Wf_set_isComponentMounted, HI.
    + exact (inv_superseded_closing w H2).
    + reflexivity.
  - apply cleanupWebSocket_Inv2.
    + apply Wf_set_isComponentMounted, HI.
    + exact (inv_superseded_closing w H2).
    + discriminate.
  - eapply Inv2_same_conn; [apply same_conn_render | | exact H2].
    exact (f_equal snap_connected (proj1 (render_frame w))).
Qed.

Lemma reachable_Inv2 (w : World) : reachable JSON_parse w -> Inv2 w.
Proof.
  induction 1 as [p h n | s w Hr IH].
  - apply connectWebSocket_Inv2.
    + apply Wf_resetState, Wf_set_isComponentMounted, Wf_initial_world.
    + simpl. intros s so. rewrite lookup_empty. discriminate.
    + reflexivity.
  - apply Inv2_step; [exact (reachable_Inv JSON_parse w Hr) | exact IH].
Qed.

End ReachableStates.



(** X19. The watchdog never fires on an open socket: the open event
    cancels it, so whenever a watchdog is still pending its socket has
    not opened, and a connection that was established is not torn down
    by the timeout. *)
Theorem pending_watchdog_socket_not_open
    (JSON_parse : string -> option json) (w : World)
    (id : timerid) (t : Timer) (p : Props) (s : sockid) :
  reachable JSON_parse w ->
  timers w !! id = Some t ->
  callback t = Watchdog p s ->
  is_open s w = false.
Proof.
  intros Hreach. exact (inv_watchdog_not_open w (reachable_Inv2 JSON_parse w Hreach) id t p s).
Qed.

Lemma pending_watchdog_socket_not_open_witness :
  is_open 1 demo_world = false.
Proof.
  exact (pending_watchdog_socket_not_open RefParser.JSON_parse demo_world 1
           {| callback := Watchdog demo_props 1; delay := 5000 |} demo_props 1
           (reachable_mount RefParser.JSON_parse demo_props {[ 1 := unsorted ]} 2)
           eq_refl eq_refl).
Defined.

(** X20. A socket the manager has let go of is never left open: in every
    reachable state each socket other than the current one is closing or
    closed. *)
Theorem superseded_socket_is_closing
    (JSON_parse : string -> option json) (w : World) (s : sockid) (so : WebSocket) :
  reachable JSON_parse w ->
  sockets w !! s = Some so ->
  wsRef w <> Some s ->
  closing so.
Proof.
  intros Hreach. exact (inv_superseded_closing w (reachable_Inv2 JSON_parse w Hreach) s so).
Qed.

(** X21. Unmounting leaves nothing behind: after the effect's cleanup no
    timer is pending, no socket is current, and every socket is without
    handlers and closing or closed. *)
Theorem unmount_leaves_nothing_pending
    (JSON_parse : string -> option json) (w : World) :
  reachable JSON_parse w ->
  let w' := effect_cleanup w in
  timers w' = ∅ /\ wsRef w' = None /\
  reconnectTimeoutRef w' = None /\ connectionTimeoutRef w' = None /\
  forall s so, sockets w' !! s = Some so -> detached so /\ closing so.
Proof.
  intros Hreach w'.
  destruct (reachable_Inv JSON_parse w Hreach) as [HW _].
  pose proof (reachable_Inv2 JSON_parse w Hreach) as H2.
  pose proof (cleanupWebSocket_Idle _ (Wf_set_isComponentMounted false w HW)) as HI.
  fold (effect_cleanup w) in HI. fold w' in HI.
  repeat apply conj; try apply HI.
  intros s so Hs. split; [exact (idle_sockets _ HI s so Hs)|].
  exact (cleanupWebSocket_all_closing (set_isComponentMounted false w)
           (inv_superseded_closing w H2) s so Hs).
Qed.

Lemma unmount_leaves_nothing_pending_witness :
  timers (effect_cleanup demo_open) = ∅.
Proof.
  apply (unmount_leaves_nothing_pending RefParser.JSON_parse demo_open
           (reachable_step RefParser.JSON_parse (Browser (SocketOpens 1)) demo_world
              (reachable_mount RefParser.JSON_parse demo_props {[ 1 := unsorted ]} 2))).
Defined.

Lemma demo_resubscribed_reachable : reachable RefParser.JSON_parse demo_resubscribed.
Proof.
  exact (reachable_step RefParser.JSON_parse (RunEffect demo_props)
           (step RefParser.JSON_parse RunCleanup demo_world)
           (reachable_step RefParser.JSON_parse RunCleanup demo_world
              (reachable_mount RefParser.JSON_parse demo_props {[ 1 := unsorted ]} 2))).
Qed.

Lemma superseded_socket_is_closing_witness : closing demo_superseded.
Proof.
  apply (superseded_socket_is_closing RefParser.JSON_parse demo_resubscribed 1 demo_superseded
           demo_resubscribed_reachable).
  - vm_compute. reflexivity.
  - vm_compute. discriminate.
Defined.

(** ** Connection attempts *)

(** What [connectWebSocket] does in a mounted component whose sockets
    other than the current one are closing. *)
Lemma connectWebSocket_connecting (p : Props) (w : World) :
  Wf w ->
  (forall s so, sockets w !! s = Some so -> wsRef w <> Some s -> closing so) ->
  isComponentMounted w = true ->
  connecting_from p w (connectWebSocket p w) /\
  snapshot (connectWebSocket p w) = snapshot w /\
  heap (connectWebSocket p w) = heap w.
Proof.
  intros HW Ha Hm.
  pose proof (cleanupWebSocket_Idle w HW) as HI.
  pose proof (cleanupWebSocket_all_closing w Ha) as Hcl.
  pose proof (quiet_cleanupWebSocket w) as Hq.
  split; [|apply snapshot_connectWebSocket].
  assert (Hnew : sockets w !! next_socket w = None).
  { destruct (sockets w !! next_socket w) as [so|] eqn:E; [|reflexivity].
    pose proof (wf_socket_ids w HW _ so E). lia. }
  unfold connectWebSocket.
  rewrite (quiet_mounted _ _ Hq), Hm. simpl.
  rewrite (quiet_next_socket _ _ Hq), (quiet_next_timer _ _ Hq), (idle_timers _ HI).
  split; simpl.
  - reflexivity.
  - rewrite lookup_alter_eq, lookup_insert_eq. reflexivity.
  - exact Hnew.
  - apply insert_empty.
  - reflexivity.
  - exact (idle_reconnectTimeoutRef _ HI).
  - intros s so Hne Hs. rewrite lookup_alter_ne in Hs by congruence.
    rewrite lookup_insert_ne in Hs by congruence.
    split; [exact (idle_sockets _ HI s so Hs) | exact (Hcl s so Hs)].
  - exact (eq_trans (quiet_mounted _ _ Hq) Hm).
Qed.

Section Attempts.

Variable JSON_parse : string -> option json.

(** X22. When the reconnect timer fires, one new connection attempt
    begins, for the same props (the same [pipeline_id]) the closed socket
    had: a new socket is current and connecting, its watchdog is the only
    pending timer, and the snapshot is untouched (the status in particular
    is not reset). *)
Theorem reconnect_timer_starts_one_attempt
    (w : World) (id : timerid) (t : Timer) (p : Props) :
  reachable JSON_parse w ->
  timers w !! id = Some t ->
  callback t = Reconnect p ->
  let w' := deliver JSON_parse (TimerFires id) w in
  connecting_from p w w' /\ snapshot w' = snapshot w /\ heap w' = heap w.
Proof.
  intros Hreach Ht Hcb w'.
  pose proof (reachable_Inv JSON_parse w Hreach) as HI.
  pose proof (reachable_Inv2 JSON_parse w Hreach) as H2.
  assert (Hm : isComponentMounted w = true).
  { destruct (wf_timers w (proj1 HI) id t Ht) as [(_ & _ & s & Hw & _)|(_ & _ & s & _ & Hw)];
      exact (mounted_of_current w s HI Hw). }
  subst w'. simpl. rewrite Ht, Hcb. simpl.
  destruct (connectWebSocket_connecting p (clearTimeout id w)
              (Wf_clearTimeout id w (proj1 HI)) (inv_superseded_closing w H2) Hm)
    as [[C1 C2 C3 C4 C5 C6 C7 C8] [Hs Hh]].
  split; [split; assumption | split; assumption].
Qed.

(** X23. A change of [pipeline_id] ends with exactly one connection
    attempt, for the new props: whatever socket and timers the old
    subscription had, afterwards only the new socket has handlers and only
    its watchdog is pending, so a reconnect of the old subscription cannot
    fire any more. *)
Theorem resubscribe_starts_one_attempt (p : Props) (w : World) :
  reachable JSON_parse w ->
  connecting_from p w (resubscribe p w).
Proof.
  intros Hreach.
  pose proof (reachable_Inv JSON_parse w Hreach) as HI.
  pose proof (reachable_Inv2 JSON_parse w Hreach) as H2.
  set (w0 := effect_cleanup w).
  pose proof (cleanupWebSocket_Idle _ (Wf_set_isComponentMounted false w (proj1 HI))) as HI0.
  fold (effect_cleanup w) in HI0. fold w0 in HI0.
  pose proof (quiet_cleanupWebSocket (set_isComponentMounted false w)) as Hq.
  fold (effect_cleanup w) in Hq. fold w0 in Hq.
  set (w1 := resetState p (set_isComponentMounted true w0)).
  assert (HW1 : Wf w1) by (apply Wf_resetState, Wf_set_isComponentMounted, Idle_Wf, HI0).
  assert (Ha1 : forall s so, sockets w1 !! s = Some so -> wsRef w1 <> Some s -> closing so).
  { intros s so Hs _.
    exact (cleanupWebSocket_all_closing (set_isComponentMounted false w)
             (inv_superseded_closing w H2) s so Hs). }
  destruct (connectWebSocket_connecting p w1 HW1 Ha1 eq_refl) as [[C1 C2 C3 C4 C5 C6 C7 C8] _].
  assert (Hns : next_socket w1 = next_socket w) by exact (quiet_next_socket _ _ Hq).
  assert (Hnt : next_timer w1 = next_timer w) by exact (quiet_next_timer _ _ Hq).
  rewrite Hns in *. rewrite Hnt in *.
  change (resubscribe p w) with (connectWebSocket p w1).
  split; try assumption.
  destruct (sockets w !! next_socket w) as [so|] eqn:E; [|reflexivity].
  pose proof (wf_socket_ids w (proj1 HI) _ so E). lia.
Qed.

End Attempts.

Lemma reconnect_timer_starts_one_attempt_witness :
  wsRef (deliver RefParser.JSON_parse (TimerFires 2)
           (deliver RefParser.JSON_parse (SocketCloses 1) demo_open)) = Some 2.
Proof.
  pose proof (reconnect_timer_starts_one_attempt RefParser.JSON_parse
                (deliver RefParser.JSON_parse (SocketCloses 1) demo_open) 2
                (reconnect_timer demo_props) demo_props
                (reachable_step RefParser.JSON_parse (Browser (SocketCloses 1)) demo_open
                   (reachable_step RefParser.JSON_parse (Browser (SocketOpens 1)) demo_world
                      (reachable_mount RefParser.JSON_parse demo_props {[ 1 := unsorted ]} 2)))
                ltac:(vm_compute; reflexivity) eq_refl) as H.
  cbv zeta in H. destruct H as [H _]. exact (cf_wsRef _ _ _ H).
Defined.

Lemma resubscribe_starts_one_attempt_witness :
  wsRef (resubscribe demo_props demo_world) = Some 2.
Proof.
  exact (cf_wsRef _ _ _
           (resubscribe_starts_one_attempt RefParser.JSON_parse demo_props demo_world
              (reachable_mount RefParser.JSON_parse demo_props {[ 1 := unsorted ]} 2))).
Defined.

(** ** Open, close, and the reconnect cycle *)

Section Cycle.

Variable JSON_parse : string -> option json.

(** The open event of a connecting socket. *)
Lemma open_effect (w : World) (s : sockid) (so : WebSocket) :
  Inv w -> Inv2 w ->
  sockets w !! s = Some so -> readyState so = CONNECTING ->
  exists p, onopen so = Some p /\
    sockets (deliver JSON_parse (SocketOpens s) w) !! s
      = Some (with_sent (Handshake (pipeline_id p)) (with_readyState OPEN so)) /\
    wsConnected (deliver JSON_parse (SocketOpens s) w) = true /\
    timers (deliver JSON_parse (SocketOpens s) w) = ∅ /\
    wsRef (deliver JSON_parse (SocketOpens s) w) = Some s /\
    status (deliver JSON_parse (SocketOpens s) w) = status w /\
    components (deliver JSON_parse (SocketOpens s) w) = components w /\
    pipelineData (deliver JSON_parse (SocketOpens s) w) = pipelineData w /\
    heap (deliver JSON_parse (SocketOpens s) w) = heap w.
Proof.
  intros HI H2 Hs Hr.
  assert (Hcur : wsRef w = Some s).
  { destruct (decide (wsRef w = Some s)) as [H|H]; [exact H|].
    destruct (inv_superseded_closing w H2 s so Hs H) as [H'|H']; congruence. }
  pose proof (mounted_of_current w s HI Hcur) as Hm.
  destruct (wf_current w (proj1 HI) s Hcur) as (so' & p & Hs' & Hop & _).
  rewrite Hs in Hs'. injection Hs' as <-.
  exists p. split; [exact Hop|].
  simpl. rewrite Hs, Hr, Hop. unfold ws_onopen. simpl. rewrite Hm.
  assert (Htim : match connectionTimeoutRef w with
                 | Some c => delete c (timers w)
                 | None => timers w
                 end = ∅).
  { apply map_empty. intros id.
    destruct (_ !! id) as [t|] eqn:E; [|reflexivity]. exfalso.
    assert (Hpend : timers w !! id = Some t).
    { destruct (connectionTimeoutRef w); [apply lookup_delete_Some in E as [_ E]|]; exact E. }
    destruct (wf_timers w (proj1 HI) id t Hpend)
      as [(_ & _ & s0 & Hw0 & Hcl)|(_ & p0 & s0 & Heq & _)].
    - rewrite Hcur in Hw0. injection Hw0 as <-.
      unfold readyState_of in Hcl. rewrite Hs in Hcl. simpl in Hcl. congruence.
    - apply (no_watchdog_after_clear w id t p0 s0 (proj1 HI) E). rewrite Heq. reflexivity. }
  destruct (connectionTimeoutRef w) as [c|]; simpl;
    rewrite !lookup_alter_eq, Hs; simpl; repeat apply conj; try reflexivity;
    try exact Hcur; exact Htim.
Qed.

(** The close event of the current socket. *)
Lemma close_effect (w : World) (s : sockid) (so : WebSocket) :
  Inv w ->
  wsRef w = Some s -> sockets w !! s = Some so -> readyState so <> CLOSED ->
  exists p, onclose so = Some p /\
    timers (deliver JSON_parse (SocketCloses s) w) !! next_timer w = Some (reconnect_timer p) /\
    next_socket (deliver JSON_parse (SocketCloses s) w) = next_socket w /\
    next_timer (deliver JSON_parse (SocketCloses s) w) = Pos.succ (next_timer w) /\
    wsConnected (deliver JSON_parse (SocketCloses s) w) = false /\
    status (deliver JSON_parse (SocketCloses s) w) = status w /\
    components (deliver JSON_parse (SocketCloses s) w) = components w /\
    pipelineData (deliver JSON_parse (SocketCloses s) w) = pipelineData w /\
    heap (deliver JSON_parse (SocketCloses s) w) = heap w.
Proof.
  intros HI Hcur Hs Hr.
  pose proof (mounted_of_current w s HI Hcur) as Hm.
  destruct (wf_current w (proj1 HI) s Hcur) as (so' & p & Hs' & _ & Hoc & _).
  rewrite Hs in Hs'. injection Hs' as <-.
  exists p. split; [exact Hoc|].
  assert (Hd : deliver JSON_parse (SocketCloses s) w
               = ws_onclose p s (update_socket (with_readyState CLOSED) s w)).
  { simpl. rewrite Hs, Hoc. destruct (readyState so); try reflexivity. congruence. }
  rewrite Hd. unfold ws_onclose. simpl. rewrite Hm. simpl.
  rewrite bool_decide_eq_true_2 by exact Hcur. simpl.
  repeat apply conj; try reflexivity. apply lookup_insert_eq.
Qed.

(** X24. When the connecting socket opens, the component is connected:
    the flag is set, the watchdog is cancelled so that no timer is left
    pending, the handshake with the [pipeline_id] of the attempt is sent
    on that socket, and status, components and data map are as before. *)
Theorem socket_open_sends_handshake (w : World) (s : sockid) (so : WebSocket) :
  reachable JSON_parse w ->
  sockets w !! s = Some so ->
  readyState so = CONNECTING ->
  let w' := deliver JSON_parse (SocketOpens s) w in
  exists p, onopen so = Some p /\
    sockets w' !! s = Some (with_sent (Handshake (pipeline_id p)) (with_readyState OPEN so)) /\
    wsConnected w' = true /\
    timers w' = ∅ /\
    status w' = status w /\ components w' = components w /\ pipelineData w' = pipelineData w.
Proof.
  intros Hreach Hs Hr w'.
  destruct (open_effect w s so (reachable_Inv JSON_parse w Hreach)
              (reachable_Inv2 JSON_parse w Hreach) Hs Hr)
    as (p & H1 & H2 & H3 & H4 & _ & H5 & H6 & H7 & _).
  exists p. repeat apply conj; assumption.
Qed.

(** X25. The whole reconnect cycle: the current socket closes, the
    reconnect timer fires, the new socket opens.  The handshake is sent
    again, with the same [pipeline_id]; the component is connected, no
    timer is pending, and the status, the components and the data map are
    what they were before the connection dropped. *)
Theorem reconnect_cycle_resends_handshake (w : World) (s : sockid) (so : WebSocket) :
  reachable JSON_parse w ->
  wsRef w = Some s ->
  sockets w !! s = Some so ->
  readyState so <> CLOSED ->
  let w1 := deliver JSON_parse (SocketCloses s) w in
  let w2 := deliver JSON_parse (TimerFires (next_timer w)) w1 in
  let w3 := deliver JSON_parse (SocketOpens (next_socket w)) w2 in
  exists p, onclose so = Some p /\
    wsRef w3 = Some (next_socket w) /\
    sockets w3 !! next_socket w
      = Some (with_sent (Handshake (pipeline_id p)) (with_readyState OPEN (fresh_socket p))) /\
    wsConnected w3 = true /\
    timers w3 = ∅ /\
    status w3 = status w /\ components w3 = components w /\ pipelineData w3 = pipelineData w.
Proof.
  intros Hreach Hcur Hs Hr w1 w2 w3.
  pose proof (reachable_Inv JSON_parse w Hreach) as HI.
  destruct (close_effect w s so HI Hcur Hs Hr)
    as (p & Hoc & Ht & Hns & _ & _ & Hst & Hco & Hpd & _).
  fold w1 in Ht, Hns, Hst, Hco, Hpd.
  assert (Hreach1 : reachable JSON_parse w1)
    by exact (reachable_step JSON_parse (Browser (SocketCloses s)) w Hreach).
  assert (Hreach2 : reachable JSON_parse w2)
    by exact (reachable_step JSON_parse (Browser (TimerFires (next_timer w))) w1 Hreach1).
  pose proof (reachable_Inv JSON_parse w1 Hreach1) as HI1.
  pose proof (reachable_Inv2 JSON_parse w1 Hreach1) as H21.
  assert (Hm1 : isComponentMounted w1 = true).
  { destruct (wf_timers w1 (proj1 HI1) _ _ Ht) as [(_ & _ & s0 & Hw & _)|(_ & _ & s0 & _ & Hw)];
      exact (mounted_of_current w1 s0 HI1 Hw). }
  assert (Hw2 : w2 = connectWebSocket p (clearTimeout (next_timer w) w1)).
  { subst w2. simpl. rewrite Ht. reflexivity. }
  destruct (connectWebSocket_connecting p (clearTimeout (next_timer w) w1)
              (Wf_clearTimeout _ w1 (proj1 HI1)) (inv_superseded_closing w1 H21) Hm1)
    as [[C1 C2 _ _ _ _ _ _] [Hsn _]].
  rewrite <- Hw2 in C1, C2, Hsn. simpl in C1, C2. rewrite Hns in C1, C2.
  destruct (open_effect w2 (next_socket w) (fresh_socket p)
              (reachable_Inv JSON_parse w2 Hreach2) (reachable_Inv2 JSON_parse w2 Hreach2)
              C2 eq_refl)
    as (p' & Hop & O1 & O2 & O3 & O4 & O5 & O6 & O7 & _).
  simpl in Hop. injection Hop as <-.
  fold w3 in O1, O2, O3, O4, O5, O6, O7.
  pose proof (f_equal snap_status Hsn) as S1.
  pose proof (f_equal snap_components Hsn) as S2.
  pose proof (f_equal snap_data Hsn) as S3.
  simpl in S1, S2, S3.
  exists p. repeat apply conj; try assumption; congruence.
Qed.

End Cycle.

Lemma socket_open_sends_handshake_witness :
  exists p, onopen (fresh_socket demo_props) = Some p /\
    sockets demo_open !! 1
      = Some (with_sent (Handshake (pipeline_id p)) (with_readyState OPEN (fresh_socket demo_props))).
Proof.
  destruct (socket_open_sends_handshake RefParser.JSON_parse demo_world 1 (fresh_socket demo_props)
              (reachable_mount RefParser.JSON_parse demo_props {[ 1 := unsorted ]} 2)
              eq_refl eq_refl) as (p & H1 & H2 & _).
  exists p. split; [exact H1 | exact H2].
Defined.

Lemma reconnect_cycle_resends_handshake_witness :
  exists p, onclose demo_socket = Some p /\
    wsConnected
      (deliver RefParser.JSON_parse (SocketOpens 2)
         (deliver RefParser.JSON_parse (TimerFires 2)
            (deliver RefParser.JSON_parse (SocketCloses 1) demo_open))) = true.
Proof.
  destruct (reconnect_cycle_resends_handshake RefParser.JSON_parse demo_open 1 demo_socket
              (reachable_step RefParser.JSON_parse (Browser (SocketOpens 1)) demo_world
                 (reachable_mount RefParser.JSON_parse demo_props {[ 1 := unsorted ]} 2))
              eq_refl eq_refl ltac:(discriminate)) as (p & H1 & _ & _ & H2 & _).
  exists p. split; [exact H1 | exact H2].
Defined.

(** ** What the handlers read and what they write *)

Lemma key_in_ne (k k' : string) (ks : list string) :
  key_in k ks = false -> In k' ks -> k <> k'.
Proof.
  unfold key_in. intros H Hin ->.
  assert (existsb (String.eqb k') ks = true) as E; [|congruence].
  apply existsb_exists. exists k'. split; [exact Hin | apply String.eqb_refl].
Qed.

(** X26. In [App], a frame whose status is ["connected"] is only an
    acknowledgment: every other field it carries is dropped, and status,
    pipeline id, components and data stay as they were. *)
Theorem handleMessage_ack_drops_other_fields
    (JSON_parse : string -> option json) (raw : string)
    (o : list (string * json)) (st : App.State) :
  JSON_parse raw = Some (JObj o) ->
  assoc "status" o = Some (JStr "connected") ->
  let r := App.handleMessage JSON_parse raw st in
  snd r = Normal tt /\
  App.status (fst r) = App.status st /\
  App.pipelineId (fst r) = App.pipelineId st /\
  App.components (fst r) = App.components st /\
  App.pipelineData (fst r) = App.pipelineData st.
Proof.
  intros Hp Hs r. subst r.
  rewrite (handleMessage_handshake JSON_parse raw o st Hp Hs).
  repeat split; reflexivity.
Qed.

Lemma handleMessage_ack_drops_other_fields_witness :
  App.components
    (fst (App.handleMessage RefParser.JSON_parse
            (RefParser.frame "{'status': 'connected', 'components': [{'name': 'ingest'}]}")
            App.initial))
    = App.components App.initial.
Proof.
  apply (handleMessage_ack_drops_other_fields RefParser.JSON_parse
           (RefParser.frame "{'status': 'connected', 'components': [{'name': 'ingest'}]}")
           [("status", JStr "connected"); ("components", JArr [JObj [("name", JStr "ingest")]])]
           App.initial eq_refl eq_refl).
Defined.

(** X27. Each handler reads its own property names and no other: the
    monitor [status], [components], [pipeline_data]; [App] [status],
    [pipelineId], [components], [pipelineData].  A property under any
    other name, whatever its value, makes no difference; so the monitor
    does not see [pipelineData] and [App] does not see [pipeline_data]. *)
Theorem handlers_ignore_other_properties
    (JSON_parse : string -> option json) (raw raw' : string)
    (o : list (string * json)) (k : string) (w : World) (st : App.State) :
  JSON_parse raw = Some (JObj o) ->
  JSON_parse raw' = Some (JObj (remove_prop k o)) ->
  (key_in k monitor_keys = false ->
     ws_onmessage JSON_parse raw w = ws_onmessage JSON_parse raw' w) /\
  (key_in k app_keys = false ->
     App.handleMessage JSON_parse raw st = App.handleMessage JSON_parse raw' st).
Proof.
  intros Hp Hp'. split; intros Hk.
  - unfold ws_onmessage, try_catch, onmessage_try, parse, bind, lift, get_prop.
    rewrite Hp, Hp'. unfold ret, throw. cbv beta iota.
    rewrite !(assoc_remove_prop_ne k) by (apply (key_in_ne k _ monitor_keys Hk); simpl; tauto).
    reflexivity.
  - unfold App.handleMessage, bind, lift, get_prop.
    rewrite Hp, Hp'. unfold ret, throw. cbv beta iota.
    rewrite !(assoc_remove_prop_ne k) by (apply (key_in_ne k _ app_keys Hk); simpl; tauto).
    reflexivity.
Qed.

Lemma handlers_ignore_other_properties_witness :
  ws_onmessage RefParser.JSON_parse
    (RefParser.frame "{'pipelineData': {'parser.rows': '10'}, 'status': 'running'}") demo_open
  = ws_onmessage RefParser.JSON_parse (RefParser.frame "{'status': 'running'}") demo_open.
Proof.
  apply (handlers_ignore_other_properties RefParser.JSON_parse
           (RefParser.frame "{'pipelineData': {'parser.rows': '10'}, 'status': 'running'}")
           (RefParser.frame "{'status': 'running'}")
           [("pipelineData", JObj [("parser.rows", JStr "10")]); ("status", JStr "running")]
           "pipelineData" demo_open App.initial eq_refl eq_refl).
  reflexivity.
Defined.

(** X28. A field that the frame carries with a truthy value is applied
    by the mounted monitor: the status and the data map become the
    frame's values, the stored components the frame's list. *)
Theorem ws_onmessage_applies_present_fields
    (JSON_parse : string -> option json) (raw : string)
    (o : list (string * json)) (k : string) (v : json) (w : World) :
  JSON_parse raw = Some (JObj o) ->
  assoc k o = Some v ->
  truthy v = true ->
  isComponentMounted w = true ->
  let w' := ws_onmessage JSON_parse raw w in
  (k = "status" -> status w' = v) /\
  (k = "components" -> stored_components w' = Some v) /\
  (k = "pipeline_data" -> pipelineData w' = v).
Proof.
  intros Hp Hk Hv Hm w'. subst w'.
  unfold ws_onmessage, try_catch, onmessage_try, parse, bind, lift, get_prop, stored_components.
  rewrite Hp, Hm. unfold ret, throw. cbv beta iota.
  repeat apply conj; intros ->; rewrite Hk; simpl; rewrite Hv; simpl;
    case_props o; try reflexivity; apply lookup_insert_eq.
Qed.

Lemma ws_onmessage_applies_present_fields_witness :
  status (ws_onmessage RefParser.JSON_parse
            (RefParser.frame "{'status': 'running', 'components': [{'name': 'ingest', 'order': 1}]}")
            demo_open) = JStr "running".
Proof.
  apply (ws_onmessage_applies_present_fields RefParser.JSON_parse
           (RefParser.frame "{'status': 'running', 'components': [{'name': 'ingest', 'order': 1}]}")
           [("status", JStr "running"); ("components", JArr [component "ingest" 1])]
           "status" (JStr "running") demo_open
           eq_refl eq_refl eq_refl eq_refl).
  reflexivity.
Defined.

(** X29. In [App], for a frame whose status is not ["connected"], each of
    the four fields that the frame carries with a truthy value becomes
    the frame's value, and the handler ends normally. *)
Theorem handleMessage_applies_present_fields
    (JSON_parse : string -> option json) (raw : string)
    (o : list (string * json)) (k : string) (v : json) (st : App.State) :
  JSON_parse raw = Some (JObj o) ->
  assoc k o = Some v ->
  truthy v = true ->
  strict_eq_str (assoc "status" o) "connected" = false ->
  let r := App.handleMessage JSON_parse raw st in
  snd r = Normal tt /\
  (k = "status" -> App.status (fst r) = v) /\
  (k = "pipelineId" -> App.pipelineId (fst r) = v) /\
  (k = "components" -> App.components (fst r) = v) /\
  (k = "pipelineData" -> App.pipelineData (fst r) = v).
Proof.
  intros Hp Hk Hv Hc r. subst r.
  unfold App.handleMessage, bind, lift, get_prop.
  rewrite Hp. unfold ret, throw. cbv beta iota. rewrite Hc.
  split; [case_props o; reflexivity|].
  repeat apply conj; intros ->; rewrite Hk; simpl; rewrite Hv; simpl;
    case_props o; reflexivity.
Qed.

Lemma handleMessage_applies_present_fields_witness :
  App.pipelineId
    (fst (App.handleMessage RefParser.JSON_parse
            (RefParser.frame "{'status': 'running', 'pipelineId': '7'}") App.initial))
    = JStr "7".
Proof.
  apply (handleMessage_applies_present_fields RefParser.JSON_parse
           (RefParser.frame "{'status': 'running', 'pipelineId': '7'}")
           [("status", JStr "running"); ("pipelineId", JStr "7")]
           "pipelineId" (JStr "7") App.initial
           eq_refl eq_refl eq_refl eq_refl).
  reflexivity.
Defined.

(** X30. The reset does not bring back the caller's order: the state
    shares the array of the props, a render sorts that array where it is,
    and when the effect later resets the components to the props it finds
    the array sorted. *)
Theorem reset_after_render_finds_sorted_props (p : Props) (w : World) (l : list json) :
  components w = initialComponents p ->
  heap w !! initialComponents p = Some (JArr l) ->
  forallb sortable l = true ->
  stored_components (resubscribe p (fst (render w))) = Some (JArr (sort l)).
Proof.
  intros Hc Hh _.
  assert (Hr : heap (fst (render w)) !! initialComponents p = Some (JArr (sort l))).
  { pose proof (render_stores_sorted w l) as H. unfold stored_components in H.
    rewrite (f_equal snap_components (proj1 (render_frame w)) : components _ = components w) in H.
    rewrite Hc in H. exact (H Hh). }
  set (w1 := fst (render w)) in *.
  unfold stored_components, resubscribe, effect.
  destruct (snapshot_connectWebSocket p
              (resetState p (set_isComponentMounted true (effect_cleanup w1)))) as [Hs Hheap].
  set (w2 := resetState p (set_isComponentMounted true (effect_cleanup w1))) in *.
  assert (Hcomp : components (connectWebSocket p w2) = initialComponents p)
    by exact (f_equal snap_components Hs).
  rewrite Hheap, Hcomp. subst w2. simpl.
  unfold effect_cleanup.
  rewrite (quiet_heap _ _ (quiet_cleanupWebSocket (set_isComponentMounted false w1))).
  exact Hr.
Qed.

Lemma reset_after_render_finds_sorted_props_witness :
  stored_components (resubscribe demo_props (fst (render first_render)))
    = Some (JArr (sort [component "B" 2; component "A" 1])).
Proof.
  exact (reset_after_render_finds_sorted_props demo_props first_render
           [component "B" 2; component "A" 1] eq_refl eq_refl eq_refl).
Defined.
